(** * Zenith markdown fixer: the rewrite rules of [scripts/markdown/rules.py]

    The rules of [MarkdownFixer] are text-to-text functions built from
    Python string methods ([split], [join], [replace], [strip],
    [startswith]), one dictionary and calls of [re.sub].  This file embeds
    them over Python's own data model (a [str] is a sequence of Unicode code
    points), with a small backtracking matcher for the regular expressions
    the rules use, and proves the properties the specification states about
    them. *)

From Stdlib Require Import ZArith NArith String Ascii Decimal Lia.
From stdpp Require Import base option list gmap.

(** ** Text *)

(** A Python [str] is a sequence of code points; [len] counts code points. *)
Abbreviation char := N (only parsing).
Abbreviation str := (list N) (only parsing).

Definition nl : char := 10%N.

(** [py "..."] reads a literal the way Python reads it: the two characters
    backslash, [n] stand for the newline; everything else is itself. *)
Fixpoint py_chars (l : list ascii) : str :=
  match l with
  | [] => []
  | a :: l' =>
      match a, l' with
      | "\"%char, "n"%char :: l'' => nl :: py_chars l''
      | _, _ => N_of_ascii a :: py_chars l'
      end
  end.

Definition py (s : string) : str := py_chars (list_ascii_of_string s).

(** The code points of the source that are outside ASCII. *)
Definition check_mark : char := 0x2705%N.      (* U+2705 *)
Definition wrench : char := 0x1F527%N.         (* U+1F527 *)
Definition rocket : char := 0x1F680%N.         (* U+1F680 *)
Definition bar_chart : char := 0x1F4CA%N.      (* U+1F4CA *)
Definition wide_comma : char := 0xFF0C%N.      (* U+FF0C, fullwidth comma *)
Definition dquote : char := 34%N.

(** ** Python string methods *)

Module Py.

(** [s.startswith(p)] *)
Fixpoint startswith (p s : str) : bool :=
  match p, s with
  | [], _ => true
  | a :: p', b :: s' => (a =? b)%N && startswith p' s'
  | _ :: _, [] => false
  end.

(** [s.endswith(p)] *)
Definition endswith (p s : str) : bool := startswith (rev p) (rev s).

(** [sub in s] *)
Fixpoint contains (sub s : str) : bool :=
  startswith sub s ||
  match s with
  | [] => false
  | _ :: s' => contains sub s'
  end.

(** [s.split(sep)]: the segments between the non-overlapping occurrences of
    [sep], found from the left.  [skip] counts the characters of an
    occurrence still to pass over.  An empty separator raises
    [ValueError]. *)
Fixpoint split_go (sep : str) (skip : nat) (s : str) : list str :=
  match s with
  | [] => [[]]
  | c :: s' =>
      match skip with
      | S k => split_go sep k s'
      | O =>
          if startswith sep s then [] :: split_go sep (length sep - 1) s'
          else match split_go sep 0 s' with
               | seg :: segs => (c :: seg) :: segs
               | [] => [[c]]
               end
      end
  end.

Definition split (sep s : str) : option (list str) :=
  match sep with
  | [] => None
  | _ :: _ => Some (split_go sep 0 s)
  end.

(** [sep.join(l)] *)
Fixpoint join (sep : str) (l : list str) : str :=
  match l with
  | [] => []
  | [x] => x
  | x :: l' => x ++ sep ++ join sep l'
  end.

(** [s.replace(old, new)]: every non-overlapping occurrence, from the left.
    With an empty [old], Python puts [new] before every character and at
    the end. *)
Fixpoint replace_go (old new : str) (skip : nat) (s : str) : str :=
  match s with
  | [] => []
  | c :: s' =>
      match skip with
      | S k => replace_go old new k s'
      | O =>
          if startswith old s then new ++ replace_go old new (length old - 1) s'
          else c :: replace_go old new 0 s'
      end
  end.

Definition replace (old new s : str) : str :=
  match old with
  | [] => flat_map (fun c => new ++ [c]) s ++ new
  | _ :: _ => replace_go old new 0 s
  end.

(** [c.isspace()]: the code points [str.strip()] removes. *)
Definition isspace (c : char) : bool :=
  ((9 <=? c) && (c <=? 13) || (28 <=? c) && (c <=? 32) ||
   (c =? 0x85) || (c =? 0xA0) || (c =? 0x1680) ||
   (0x2000 <=? c) && (c <=? 0x200A) ||
   (c =? 0x2028) || (c =? 0x2029) || (c =? 0x202F) || (c =? 0x205F) ||
   (c =? 0x3000))%N.

Fixpoint lstrip (s : str) : str :=
  match s with
  | [] => []
  | c :: s' => if isspace c then lstrip s' else s
  end.

(** [s.strip()] *)
Definition strip (s : str) : str := rev (lstrip (rev (lstrip s))).

(** [str(n)] for a non-negative integer, as an f-string formats it. *)
Fixpoint uint_chars (d : Decimal.uint) : str :=
  match d with
  | Nil => []
  | D0 d' => 48%N :: uint_chars d'
  | D1 d' => 49%N :: uint_chars d'
  | D2 d' => 50%N :: uint_chars d'
  | D3 d' => 51%N :: uint_chars d'
  | D4 d' => 52%N :: uint_chars d'
  | D5 d' => 53%N :: uint_chars d'
  | D6 d' => 54%N :: uint_chars d'
  | D7 d' => 55%N :: uint_chars d'
  | D8 d' => 56%N :: uint_chars d'
  | D9 d' => 57%N :: uint_chars d'
  end.

Definition str_of_nat (n : nat) : str := uint_chars (Nat.to_uint n).

(** [len(s)] as a Python integer. *)
Definition len (s : str) : Z := Z.of_nat (length s).

End Py.

(** A [for] loop whose body may raise: the state is threaded through the
    elements, and the first exception ends the loop. *)
Fixpoint for_each {S A : Type} (body : S -> A -> option S) (l : list A) (s : S)
  : option S :=
  match l with
  | [] => Some s
  | x :: l' => s' ← body s x; for_each body l' s'
  end.

(** ** Regular expressions

    The fragment of Python's [re] syntax that the rules use, and a
    backtracking matcher for it.  [m] returns the ways a pattern can match
    at a position, in the order Python's matcher tries them (a greedy
    repetition tries the longest run first, an alternation its left branch
    first), so that the match Python finds is the head of the list. *)

Module Re.

Inductive re : Type :=
| Eps                                          (* the empty pattern *)
| Chr (c : char)                               (* a literal character *)
| Cls (neg : bool) (ranges : list (char * char))  (* [...] and [^...] *)
| Seq (r1 r2 : re)                             (* r1 r2 *)
| Alt (r1 r2 : re)                             (* r1|r2 *)
| Rep (min : nat) (r : re)                     (* r{min,}: r* is Rep 0, r+ is Rep 1 *)
| Grp (n : nat) (r : re)                       (* capturing group number n *)
| NLook (r : re)                               (* (?!r) *)
| Bol                                          (* ^ *)
| Eol.                                         (* $ *)

(** A literal string. *)
Fixpoint lit (s : str) : re :=
  match s with
  | [] => Eps
  | c :: s' => Seq (Chr c) (lit s')
  end.

(** [one c] is the one-character range of a class. *)
Definition one (c : char) : char * char := (c, c).

(** A position of the matcher: the character before it (none at the start
    of the text), the text from it on, and the groups captured so far. *)
Record mstate : Type := MState {
  prev : option char;
  rest : str;
  caps : list (nat * str)
}.

Definition in_class (neg : bool) (ranges : list (char * char)) (c : char) : bool :=
  xorb neg (existsb (fun r => (fst r <=? c) && (c <=? snd r))%N ranges).

Definition eat (ok : char -> bool) (st : mstate) : list mstate :=
  match rest st with
  | c :: s' => if ok c then [MState (Some c) s' (caps st)] else []
  | [] => []
  end.

(** The text consumed between two positions of one match. *)
Definition consumed (st st' : mstate) : str :=
  take (length (rest st) - length (rest st')) (rest st).

Definition progress (st st' : mstate) : bool :=
  length (rest st') <? length (rest st).

(** Greedy iteration: one more round of [f] first, stopping last.  A round
    that consumes nothing ends the iteration, as in Python; [fuel] is the
    length of the remaining text, which every round shortens. *)
Fixpoint star (f : mstate -> list mstate) (fuel : nat) (st : mstate) : list mstate :=
  match fuel with
  | O => [st]
  | S n => flat_map (star f n) (List.filter (progress st) (f st)) ++ [st]
  end.

Fixpoint rep (f : mstate -> list mstate) (min : nat) (st : mstate) : list mstate :=
  match min with
  | O => star f (length (rest st)) st
  | S n => flat_map (rep f n) (f st)
  end.

(** [^] and [$]; [multiline] is the flag [re.MULTILINE]. *)
Definition at_bol (multiline : bool) (st : mstate) : bool :=
  match prev st with
  | None => true
  | Some c => multiline && (c =? nl)%N
  end.

Definition at_eol (multiline : bool) (st : mstate) : bool :=
  match rest st with
  | [] => true
  | c :: s' => (c =? nl)%N && (multiline || match s' with [] => true | _ => false end)
  end.

Fixpoint m (multiline : bool) (r : re) (st : mstate) : list mstate :=
  match r with
  | Eps => [st]
  | Chr c => eat (N.eqb c) st
  | Cls neg ranges => eat (in_class neg ranges) st
  | Seq r1 r2 => flat_map (m multiline r2) (m multiline r1 st)
  | Alt r1 r2 => m multiline r1 st ++ m multiline r2 st
  | Rep min r' => rep (m multiline r') min st
  | Grp n r' =>
      map (fun st' => MState (prev st') (rest st') ((n, consumed st st') :: caps st'))
          (m multiline r' st)
  | NLook r' =>
      match m multiline r' st with
      | [] => [st]
      | _ :: _ => []
      end
  | Bol => if at_bol multiline st then [st] else []
  | Eol => if at_eol multiline st then [st] else []
  end.

(** The numbers of the groups of a pattern. *)
Fixpoint groups (r : re) : list nat :=
  match r with
  | Eps | Chr _ | Cls _ _ | Bol | Eol => []
  | Seq r1 r2 | Alt r1 r2 => groups r1 ++ groups r2
  | Rep _ r' | NLook r' => groups r'
  | Grp n r' => n :: groups r'
  end.

(** Replacement templates: literal text and group references [\n]. *)
Inductive titem : Type :=
| TLit (s : str)
| TRef (n : nat).

(** A reference to a group the pattern does not have raises [re.error],
    whether or not the pattern matches. *)
Definition template_ok (p : re) (t : list titem) : bool :=
  forallb (fun i => match i with
                    | TLit _ => true
                    | TRef n => existsb (Nat.eqb n) (groups p)
                    end) t.

(** A group that took no part in the match expands to the empty string. *)
Definition group (n : nat) (st : mstate) : str :=
  match List.find (fun e => Nat.eqb (fst e) n) (caps st) with
  | Some e => snd e
  | None => []
  end.

Definition expand (t : list titem) (st : mstate) : str :=
  flat_map (fun i => match i with
                     | TLit s => s
                     | TRef n => group n st
                     end) t.

Definition found (multiline : bool) (p : re) (prev : option char) (s : str)
  : list mstate :=
  m multiline p (MState prev s []).

(** The scan of [re.sub]: at each position the first match is replaced and
    the scan resumes behind it ([skip] counts the matched characters still
    to pass over); without a match the character is copied.  An empty match
    is replaced too, and a second match from the same position must then be
    non-empty. *)
Fixpoint sub_go (multiline : bool) (p : re) (t : list titem)
    (skip : nat) (prev : option char) (s : str) : str :=
  match s with
  | [] =>
      match skip, head (found multiline p prev []) with
      | O, Some st => expand t st
      | _, _ => []
      end
  | c :: s' =>
      match skip with
      | S k => sub_go multiline p t k (Some c) s'
      | O =>
          match head (found multiline p prev s) with
          | None => c :: sub_go multiline p t 0 (Some c) s'
          | Some st =>
              match length s - length (rest st) with
              | S k => expand t st ++ sub_go multiline p t k (Some c) s'
              | O =>
                  expand t st ++
                  match head (List.filter (fun st' => length (rest st') <? length s)
                                          (found multiline p prev s)) with
                  | Some st' =>
                      expand t st' ++
                      sub_go multiline p t (length s - length (rest st') - 1) (Some c) s'
                  | None => c :: sub_go multiline p t 0 (Some c) s'
                  end
              end
          end
      end
  end.

(** The character before the position reached by reading [w]. *)
Definition prev_after (prev : option char) (w : str) : option char :=
  match last w with
  | Some c => Some c
  | None => prev
  end.

(** The positions a greedy run over [w] can stop at, the longest first;
    [s] is the text behind the run. *)
Fixpoint runs (prev : option char) (w s : str) (c : list (nat * str)) : list mstate :=
  match w with
  | [] => [MState prev s c]
  | x :: w' => runs (Some x) w' s c ++ [MState prev (w ++ s) c]
  end.

(** [s] does not go on with a character of the class [ok]. *)
Definition stops (ok : char -> bool) (s : str) : Prop :=
  match s with
  | [] => True
  | x :: _ => ok x = false
  end.

Definition MULTILINE : bool := true.
Definition NOFLAG : bool := false.

(** [re.sub(pattern, repl, string, flags=...)] *)
Definition sub (pattern : re) (repl : list titem) (string : str) (flags : bool)
  : option str :=
  if template_ok pattern repl then Some (sub_go flags pattern repl 0 None string)
  else None.

End Re.

Infix "⋅" := Re.Seq (at level 41, right associativity).

(** ** The rules of [MarkdownFixer]

    A rule returns [Some] of the new content, or [None] where Python would
    raise: [split] on an empty separator, [parts[0]] on an empty list, a
    dictionary read of a missing key, a template that names a missing
    group. *)

Module MarkdownFixer.

Import Py Re.

Definition ch (a : ascii) : char := N_of_ascii a.
Arguments ch a%_char.

(** [parts[0]]; an index out of range raises [IndexError]. *)
Definition first {A : Type} (l : list A) : option A := l !! 0.

Definition fix_md001_heading_increment (content : str) : option str :=
  lines ← split (py "\n") content;
  let '(heading_level, result) :=
    fold_left (fun (st : nat * list str) line =>
                 let '(heading_level, result) := st in
                 if startswith (py "##") line then
                   let heading_level := 2 in
                   let heading_level :=
                     if startswith (py "###") line then 3 else heading_level in
                   (heading_level, result ++ [line])
                 else (heading_level, result ++ [line]))
              lines (0, []) in
  Some (join (py "\n") result).

(** The text that keys [heading_counts]. *)
Definition md024_base (line : str) : str :=
  strip (replace (py ":") [] (replace (py "### ") [] line)).

(** The body of the loop of [fix_md024_duplicate_headings]. *)
Definition md024_line (st : gmap str nat * list str) (line : str)
  : option (gmap str nat * list str) :=
  let '(heading_counts, new_lines) := st in
  if startswith (py "### ") line then
    let base := md024_base line in
    if bool_decide (is_Some (heading_counts !! base)) then
      n ← heading_counts !! base;
      let heading_counts := <[base := n + 1]> heading_counts in
      n' ← heading_counts !! base;
      Some (heading_counts,
            new_lines ++ [py "### " ++ base ++ py " (" ++ str_of_nat n' ++ py ")"])
    else
      Some (<[base := 1]> heading_counts, new_lines ++ [line])
  else Some (heading_counts, new_lines ++ [line]).

Definition fix_md024_duplicate_headings (content : str) : option str :=
  lines ← split (py "\n") content;
  st ← for_each md024_line lines (∅, []);
  Some (join (py "\n") st.2).

Definition not_colon_nl : re := Cls true [one (ch ":"); one nl].

(** [^(### [^:\n]+):$] and [^(## [^:\n]+):$], with [marker] the heading
    marker and its space. *)
Definition md026_pattern (marker : str) : re :=
  Bol ⋅ Grp 1 (lit marker ⋅ Rep 1 not_colon_nl) ⋅ Chr (ch ":") ⋅ Eol.

Definition md026_patterns : list (re * list titem) :=
  [ (md026_pattern (py "### "), [TRef 1]);
    (md026_pattern (py "## "), [TRef 1]) ].

Definition fix_md026_trailing_punctuation (content : str) : option str :=
  for_each (fun content (pr : re * list titem) =>
              let '(pattern, replacement) := pr in
              sub pattern replacement content MULTILINE)
           md026_patterns content.

Definition fix_md027_asterisk_blocks (content : str) : option str :=
  Some content.

Definition fix_md028_blank_line_after_blockquotes (content : str) : option str :=
  Some content.

Definition md030_dash : re := Bol ⋅ lit (py "  - ").
Definition md030_star : re := Bol ⋅ lit (py "  * ").

Definition fix_md030_list_markers (content : str) : option str :=
  content ← sub md030_dash [TLit (py "- ")] content MULTILINE;
  content ← sub md030_star [TLit (py "* ")] content MULTILINE;
  Some content.

Definition not_nl : re := Cls true [one nl].

Definition md031_before : re :=
  Grp 1 not_nl ⋅ Chr nl ⋅
  Grp 2 (lit (py "```") ⋅ Rep 0 (Cls false [(ch "a", ch "z")]) ⋅ Chr nl).

Definition md031_after : re := Chr nl ⋅ Grp 1 (lit (py "```")) ⋅ Chr nl.

Definition fix_md031_code_blocks (content : str) : option str :=
  content ← sub md031_before [TRef 1; TLit (py "\n\n"); TRef 2] content NOFLAG;
  content ← sub md031_after [TLit (py "\n"); TRef 1; TLit (py "\n\n")] content NOFLAG;
  Some content.

(** [- ] and one of the four lead symbols of the source. *)
Definition marked_bullet : re :=
  lit (py "- ") ⋅
  Cls false [one check_mark; one wrench; one rocket; one bar_chart].

Definition md032_after (head : re) : re :=
  Grp 1 head ⋅ Chr nl ⋅ Grp 2 marked_bullet.

Definition md032_repl : list titem := [TRef 1; TLit (py "\n\n"); TRef 2].

Definition md032_h3 : re := md032_after (lit (py "### ") ⋅ Rep 1 not_nl).
Definition md032_h2 : re := md032_after (lit (py "## ") ⋅ Rep 1 not_nl).
Definition md032_bold : re :=
  md032_after (lit (py "**") ⋅ Rep 1 not_nl ⋅ lit (py "**")).

Definition fix_md032_heading_list_spacing (content : str) : option str :=
  content ← sub md032_h3 md032_repl content NOFLAG;
  content ← sub md032_h2 md032_repl content NOFLAG;
  content ← sub md032_bold md032_repl content NOFLAG;
  Some content.

Definition fix_md033_no_inline_html (content : str) : option str :=
  Some content.

Definition not_star : re := Cls true [one (ch "*")].

Definition md036_spaced : re :=
  Bol ⋅
  Grp 1 (lit (py "**") ⋅
         Rep 1 (Alt not_star (Chr (ch "*") ⋅ NLook (Chr (ch "*")))) ⋅
         lit (py " **")) ⋅
  Eol.

Definition md036_bold : re :=
  Bol ⋅ lit (py "**") ⋅ Grp 1 (Rep 1 not_star) ⋅ lit (py "**") ⋅ Eol.

Definition md036_strong : re :=
  Bol ⋅ lit (py "<strong>") ⋅ Grp 1 (Rep 1 (Cls true [one (ch "<")])) ⋅
  lit (py "</strong>") ⋅ Eol.

Definition md036_repl : list titem := [TLit (py "### "); TRef 1].

Definition fix_md036_emphasis_heading (content : str) : option str :=
  content ← sub md036_spaced md036_repl content MULTILINE;
  content ← sub md036_bold md036_repl content MULTILINE;
  content ← sub md036_strong md036_repl content MULTILINE;
  Some content.

Definition md040_pattern : re := lit (py "\n```\n").

Definition fix_md040_code_block_language (content : str) : option str :=
  content ← sub md040_pattern [TLit (py "\n```bash\n")] content NOFLAG;
  Some content.

Definition md045_pattern : re :=
  lit (py "<img src=" ++ [dquote]) ⋅
  Grp 1 (Rep 1 (Cls true [one dquote])) ⋅
  lit ([dquote] ++ py " width=" ++ [dquote] ++ py "64" ++ [dquote] ++ py ">").

Definition md045_repl : list titem :=
  [ TLit (py "<img src=" ++ [dquote]); TRef 1;
    TLit ([dquote] ++ py " width=" ++ [dquote] ++ py "64" ++ [dquote] ++
          py " alt=" ++ [dquote; dquote] ++ py ">") ].

Definition fix_md045_image_alt_text (content : str) : option str :=
  content ← sub md045_pattern md045_repl content NOFLAG;
  Some content.

Definition md047_pattern : re := Rep 1 (Chr nl) ⋅ Eol.
Definition md047_repl : list titem := [TLit (py "\n")].

Definition fix_md047_file_ends_newline (content : str) : option str :=
  let content :=
    if negb (endswith (py "\n") content) then content ++ py "\n" else content in
  content ← sub md047_pattern md047_repl content NOFLAG;
  Some content.

Definition md051_fixes : list (re * list titem) :=
  [ (lit (py "[Usage & Features](#usage & features)"),
     [TLit (py "[Usage & Features](#usage---features)")]);
    (lit (py "[Performance](#performance)"), [TLit (py "[Performance](#performance-1)")]);
    (lit (py "[Security](#security)"), [TLit (py "[Security](#security-1)")]);
    (lit (py "[Troubleshooting](#troubleshooting)"),
     [TLit (py "[Troubleshooting](#troubleshooting-1)")]);
    (lit (py "[Contributing](#contributing)"),
     [TLit (py "[Contributing](#contributing-1)")]);
    (lit (py "[Licensing](#licensing)"), [TLit (py "[Licensing](#licensing-1)")]) ].

Definition fix_md051_link_fragments (content : str) : option str :=
  for_each (fun content (pr : re * list titem) =>
              let '(pattern, replacement) := pr in
              sub pattern replacement content NOFLAG)
           md051_fixes content.

Definition md012_pattern : re := Rep 3 (Chr nl).
Definition md012_repl : list titem := [TLit (py "\n\n")].

Definition fix_md012_multiple_blank_lines (content : str) : option str :=
  content ← sub md012_pattern md012_repl content NOFLAG;
  Some content.

(** One round of the inner loops of [fix_md013_line_length]: [tok] is the
    split token, [n] its length as the source writes it (1 and 2). *)
Definition md013_part (tok : str) (n max_len : Z) (st : list str * str) (part : str)
  : list str * str :=
  let '(new_lines, current) := st in
  if (len current + len part + n <=? max_len)%Z then
    (new_lines, current ++ tok ++ part)
  else
    (new_lines ++ [current], py "  " ++ tok ++ strip part).

Definition md013_split (tok : str) (n max_len : Z) (new_lines : list str) (line : str)
  : option (list str) :=
  parts ← split tok line;
  current ← first parts;
  let '(new_lines, current) :=
    fold_left (md013_part tok n max_len) (drop 1 parts) (new_lines, current) in
  Some (new_lines ++ [current]).

(** The body of the outer loop. *)
Definition md013_line (max_len : Z) (new_lines : list str) (line : str)
  : option (list str) :=
  if (len line >? max_len)%Z && negb (contains (py "|") line)
     && negb (contains (py "`") line) then
    if contains [wide_comma] line then
      md013_split [wide_comma] 1 max_len new_lines line
    else if contains (py ". ") line then
      md013_split (py ". ") 2 max_len new_lines line
    else Some (new_lines ++ [line])
  else Some (new_lines ++ [line]).

Definition fix_md013_line_length (content : str) (max_len : Z) : option str :=
  lines ← split (py "\n") content;
  new_lines ← for_each (md013_line max_len) lines [];
  Some (join (py "\n") new_lines).

(** The default of the parameter [max_len]. *)
Definition default_max_len : Z := 120.

End MarkdownFixer.

(** [apply_rules] of the package: the rules of a list, left to right. *)
Definition apply_rules (content : str) (rules : list (str -> option str)) : option str :=
  for_each (fun content rule => rule content) rules content.

(** ** Notions used in the statements *)

Module Spec.

Import Py Re MarkdownFixer.

(** The level-3 headings of [lines] that [heading_counts] files under [base]. *)
Definition occurrences (base : str) (lines : list str) : nat :=
  length (List.filter
            (fun line => startswith (py "### ") line
                         && bool_decide (md024_base line = base)) lines).

(** What [fix_md024_duplicate_headings] leaves at line [i] of [lines]: the
    first heading under a key stays, the [n]-th gets the key and [(n)]. *)
Definition md024_out (lines : list str) (i : nat) (line : str) : str :=
  if startswith (py "### ") line then
    let n := occurrences (md024_base line) (take (S i) lines) in
    if n =? 1 then line
    else py "### " ++ md024_base line ++ py " (" ++ str_of_nat n ++ py ")"
  else line.

(** The rules of one argument, and the wrap rule at its default. *)
Definition all_rules : list (str -> option str) :=
  [ fix_md001_heading_increment; fix_md024_duplicate_headings;
    fix_md026_trailing_punctuation; fix_md027_asterisk_blocks;
    fix_md028_blank_line_after_blockquotes; fix_md030_list_markers;
    fix_md031_code_blocks; fix_md032_heading_list_spacing;
    fix_md033_no_inline_html; fix_md036_emphasis_heading;
    fix_md040_code_block_language; fix_md045_image_alt_text;
    fix_md047_file_ends_newline; fix_md051_link_fragments;
    fix_md012_multiple_blank_lines;
    fun content => fix_md013_line_length content default_max_len ].

(** The rules that only substitute, each with the flag and the pattern of
    its calls of [re.sub]. *)
Definition rule_patterns : list ((str -> option str) * list (bool * re)) :=
  [ (fix_md026_trailing_punctuation,
     [(MULTILINE, md026_pattern (py "### ")); (MULTILINE, md026_pattern (py "## "))]);
    (fix_md030_list_markers, [(MULTILINE, md030_dash); (MULTILINE, md030_star)]);
    (fix_md031_code_blocks, [(NOFLAG, md031_before); (NOFLAG, md031_after)]);
    (fix_md032_heading_list_spacing,
     [(NOFLAG, md032_h3); (NOFLAG, md032_h2); (NOFLAG, md032_bold)]);
    (fix_md036_emphasis_heading,
     [(MULTILINE, md036_spaced); (MULTILINE, md036_bold); (MULTILINE, md036_strong)]);
    (fix_md040_code_block_language, [(NOFLAG, md040_pattern)]);
    (fix_md045_image_alt_text, [(NOFLAG, md045_pattern)]);
    (fix_md051_link_fragments, map (fun pr => (NOFLAG, pr.1)) md051_fixes);
    (fix_md012_multiple_blank_lines, [(NOFLAG, md012_pattern)]) ].

(** The dictionary [heading_counts] after the loop has read [seen]. *)
Definition counts_of (heading_counts : gmap str nat) (seen : list str) : Prop :=
  ∀ base, heading_counts !! base =
          if occurrences base seen =? 0 then None else Some (occurrences base seen).

(** A line without a newline, as [split] on the newline yields them. *)
Definition one_line (line : str) : Prop := nl ∉ line.

(** A line the inner loop of the wrap rule may emit: within the bound, or
    the first segment [hd], or one later segment behind the prefix. *)
Definition wrapped (tok : str) (max_len : Z) (hd : str) (parts : list str) (out : str)
  : Prop :=
  (len out <= max_len)%Z ∨ out = hd ∨
  ∃ part, part ∈ parts ∧ out = py "  " ++ tok ++ strip part.

(** An output line of the wrap rule that holds a single segment of the
    split of [line] at [tok]: the first segment as it is, or a later one
    stripped, behind two spaces and the token. *)
Definition single_segment (tok line out : str) : Prop :=
  ∃ parts, split tok line = Some parts ∧
           (first parts = Some out ∨
            ∃ part, part ∈ drop 1 parts ∧ out = py "  " ++ tok ++ strip part).

(** A line of 220 characters: 100 times [a], a full stop and a space, 118
    times [b]. *)
Definition long_sentence : str :=
  repeat (ch "a") 100 ++ py ". " ++ repeat (ch "b") 118.

(** A table row of twelve characters. *)
Definition table_row : str := py "| a | b | c|".

(** A character that is neither the colon nor the newline. *)
Definition plain : char -> bool := in_class true [one (ch ":"); one nl].

(** What one pass of the trailing-colon rule, for the headings that begin
    with [marker], may leave of a line. *)
Definition md026_rel (marker line out : str) : Prop :=
  (∀ t, t ≠ [] → Forall (fun x => plain x = true) t →
        line = marker ++ t ++ [ch ":"] → out = marker ++ t) ∧
  (startswith marker line = false → out = line).

(** What the blank-line rule leaves of a run of newlines. *)
Definition capped (w : str) : str :=
  if 3 <=? length w then py "\n\n" else w.

(** The pattern [p] matches nowhere in [s], a text that follows [prev]. *)
Definition unmatched_from (flags : bool) (p : re) (prev : option char) (s : str) : Prop :=
  ∀ before after, s = before ++ after →
    found flags p (prev_after prev before) after = [].

Definition unmatched (flags : bool) (p : re) (s : str) : Prop :=
  unmatched_from flags p None s.

(** The same, computed. *)
Fixpoint unmatchedb (flags : bool) (p : re) (prev : option char) (s : str) : bool :=
  match found flags p prev s with
  | [] => match s with
          | [] => true
          | c :: s' => unmatchedb flags p (Some c) s'
          end
  | _ :: _ => false
  end.

End Spec.

(** ** The rule sets and the package

    The rule lists at the end of [rules.py], and the table
    [DOCUMENT_RULES] of [__init__.py] with the lookup that
    [fix_markdown_file] and [main] make in it. *)

Module Package.

Import Py Re MarkdownFixer.

(** A rule in a list is called with the content alone, so the wrap rule
    runs with its default bound. *)
Definition md013_default (content : str) : option str :=
  fix_md013_line_length content default_max_len.

Definition CONTRIBUTING_RULES : list (str -> option str) :=
  [ fix_md026_trailing_punctuation;
    md013_default;
    fix_md012_multiple_blank_lines;
    fix_md040_code_block_language;
    fix_md047_file_ends_newline;
    fix_md030_list_markers;
    fix_md031_code_blocks ].

Definition FAQ_RULES : list (str -> option str) :=
  [ fix_md036_emphasis_heading;
    fix_md032_heading_list_spacing;
    fix_md040_code_block_language;
    fix_md024_duplicate_headings;
    fix_md012_multiple_blank_lines;
    fix_md047_file_ends_newline;
    fix_md051_link_fragments ].

Definition PRD_RULES : list (str -> option str) :=
  [ fix_md030_list_markers;
    fix_md012_multiple_blank_lines;
    fix_md031_code_blocks;
    md013_default;
    fix_md047_file_ends_newline ].

Definition DOCUMENT_RULES : gmap str (list (str -> option str)) :=
  list_to_map
    [ (py "CONTRIBUTING.md", CONTRIBUTING_RULES);
      (py "FAQ.md", FAQ_RULES);
      (py "prd.md", PRD_RULES);
      (py "USER_GUIDE.md",
       [fix_md012_multiple_blank_lines; fix_md047_file_ends_newline]);
      (py "API_REFERENCE.md",
       [fix_md012_multiple_blank_lines; fix_md047_file_ends_newline]) ].

(** [DOCUMENT_RULES.get(file_path.name, [...])]: the rules of a file name,
    and the two newline rules for a name the table does not have. *)
Definition auto_rules (name : str) : list (str -> option str) :=
  default [fix_md012_multiple_blank_lines; fix_md047_file_ends_newline]
          (DOCUMENT_RULES !! name).

End Package.

(** ** Notions used in the further statements *)

Module Lines.

Import Py Re MarkdownFixer.

(** Three newlines in a row. *)
Definition blank_run : str := py "\n\n\n".

Definition non_nl (c : char) : bool := negb (c =? nl)%N.

Definition not_space (c : char) : bool := negb (isspace c).

(** What the trailing-colon pass for [marker] makes of one line: a line
    that is the marker, a non-empty text of plain characters and a colon
    loses the colon. *)
Definition md026_strip (marker line : str) : str :=
  if startswith marker line then
    let text := drop (length marker) line in
    match last text with
    | Some c =>
        if (c =? ch ":")%N && negb (length text =? 1)
           && forallb Spec.plain (removelast text)
        then marker ++ removelast text else line
    | None => line
    end
  else line.

(** What a list-marker pass makes of one line: a line that begins with
    [lead] begins with [repl] instead. *)
Definition md030_strip (lead repl line : str) : str :=
  if startswith lead line then repl ++ drop (length lead) line else line.

(** The two list-marker passes on one line, the dash before the star. *)
Definition md030_line (line : str) : str :=
  md030_strip (py "  * ") (py "* ") (md030_strip (py "  - ") (py "- ") line).

(** [a] and [b] hold as many newlines. *)
Definition same_newlines (a b : str) : Prop :=
  List.filter (N.eqb nl) b = List.filter (N.eqb nl) a.

(** [b] is [a] with newlines put in: [a] is a subsequence of [b], and both
    hold the same characters other than newlines. *)
Definition newlines_added (a b : str) : Prop :=
  sublist a b ∧ List.filter non_nl b = List.filter non_nl a.

(** [a] and [b] hold the same characters other than whitespace. *)
Definition same_text (a b : str) : Prop :=
  List.filter not_space b = List.filter not_space a.

End Lines.

(** ** Facts about the string methods *)

Section PyFacts.

Import Py.

Lemma startswith_one (c : char) (s : str) :
  startswith [c] s = match s with [] => false | x :: _ => (c =? x)%N end.
Proof. destruct s as [|x s]; [done|]. simpl. by rewrite andb_true_r. Qed.

Lemma split_go_cons (sep : str) (k : nat) (s : str) :
  ∃ seg segs, split_go sep k s = seg :: segs.
Proof.
  revert k. induction s as [|c s IH]; intros k; simpl; [by eauto|].
  destruct k as [|k]; [|by apply IH].
  destruct (startswith sep (c :: s)); [by eauto|].
  destruct (IH 0) as (seg & segs & ->). by eauto.
Qed.

Lemma split_one_cons (c x : char) (s : str) :
  split_go [c] 0 (x :: s) =
  if (c =? x)%N then [] :: split_go [c] 0 s
  else match split_go [c] 0 s with
       | seg :: segs => (x :: seg) :: segs
       | [] => [[x]]
       end.
Proof. cbn [split_go]. by rewrite startswith_one. Qed.

(** Joining the lines of a text gives the text back. *)
Lemma join_split_one (c : char) (s : str) :
  join [c] (split_go [c] 0 s) = s.
Proof.
  induction s as [|x s IH]; [done|].
  rewrite split_one_cons.
  destruct (N.eqb_spec c x) as [->|Hne].
  - destruct (split_go_cons [x] 0 s) as (seg & segs & Hs).
    rewrite Hs in IH |- *. simpl in *. by rewrite IH.
  - destruct (split_go_cons [c] 0 s) as (seg & segs & Hs).
    rewrite Hs in IH |- *. destruct segs; simpl in *; by rewrite IH.
Qed.

Lemma split_one_line (c : char) (line : str) :
  c ∉ line → split_go [c] 0 line = [line].
Proof.
  induction line as [|x line IH]; intros Hc; [done|].
  rewrite split_one_cons.
  apply not_elem_of_cons in Hc as [Hx Hc].
  destruct (N.eqb_spec c x); [done|]. by rewrite IH.
Qed.

Lemma split_one_app (c : char) (line rest : str) :
  c ∉ line →
  split_go [c] 0 (line ++ c :: rest) = line :: split_go [c] 0 rest.
Proof.
  induction line as [|x line IH]; intros Hc.
  - simpl app. rewrite split_one_cons. by rewrite N.eqb_refl.
  - apply not_elem_of_cons in Hc as [Hx Hc].
    simpl app. rewrite split_one_cons.
    destruct (N.eqb_spec c x); [done|]. by rewrite IH.
Qed.

(** Splitting the join of newline-free lines gives the lines back. *)
Lemma split_join_one (c : char) (line : str) (lines : list str) :
  Forall (fun l => c ∉ l) (line :: lines) →
  split_go [c] 0 (join [c] (line :: lines)) = line :: lines.
Proof.
  revert line. induction lines as [|l lines IH]; intros line Hall.
  - simpl. apply split_one_line. by inversion Hall.
  - inversion Hall as [|? ? Hline Hrest]; subst.
    change (join [c] (line :: l :: lines)) with (line ++ c :: join [c] (l :: lines)).
    rewrite split_one_app; [|done]. by rewrite IH.
Qed.

Lemma for_each_app {S A : Type} (body : S -> A -> option S) (l1 l2 : list A) (s : S) :
  for_each body (l1 ++ l2) s = for_each body l1 s ≫= for_each body l2.
Proof.
  revert s. induction l1 as [|x l1 IH]; intros s; simpl; [done|].
  destruct (body s x) as [s'|]; simpl; [apply IH|done].
Qed.

End PyFacts.

(** ** The model on known values

    Values of Python's string methods and of [re.sub], and the end-to-end
    scenarios of the specification. *)

Section Examples.

Import Py Re MarkdownFixer.

Example split_sentences :
  split (py ". ") (py "a. b. c") = Some [py "a"; py "b"; py "c"].
Proof. reflexivity. Qed.

Example split_overlap : split (py "aa") (py "aaa") = Some [[]; py "a"].
Proof. reflexivity. Qed.

Example split_empty_separator : split [] (py "abc") = None.
Proof. reflexivity. Qed.

Example replace_overlap : replace (py "aa") (py "b") (py "aaaa") = py "bb".
Proof. reflexivity. Qed.

Example replace_empty : replace [] (py "-") (py "x") = py "-x-".
Proof. reflexivity. Qed.

Example base_of_heading :
  md024_base (py "###  x: ### y ") = py "x y".
Proof. reflexivity. Qed.

Example str_of_nat_120 : str_of_nat 120 = py "120".
Proof. reflexivity. Qed.

Example sub_star_empty_matches :
  sub (Rep 0 (Chr (ch "x"))) [TLit (py "-")] (py "abxd") NOFLAG = Some (py "-a-b--d-").
Proof. vm_compute. reflexivity. Qed.

Example sub_empty_then_nonempty :
  sub (Alt Eps (Chr (ch "a"))) [TLit (py "-")] (py "a") NOFLAG = Some (py "---").
Proof. vm_compute. reflexivity. Qed.

Example sub_dollar_before_last_newline :
  sub (Chr (ch "x") ⋅ Eol) [TLit (py "-")] (py "ax\n") NOFLAG = Some (py "a-\n").
Proof. vm_compute. reflexivity. Qed.

Example sub_unmatched_group :
  sub (Alt (Grp 1 (Chr (ch "a"))) (Chr (ch "b")))
      [TLit (py "["); TRef 1; TLit (py "]")] (py "ab") NOFLAG = Some (py "[a][]").
Proof. vm_compute. reflexivity. Qed.

Example sub_missing_group :
  sub (Chr (ch "a")) [TRef 1] (py "b") NOFLAG = None.
Proof. reflexivity. Qed.

Example md036_spaced_spans_lines :
  sub md036_spaced md036_repl (py "**Foo **\n**a*b **\n**a\nb **") MULTILINE =
    Some (py "### **Foo **\n### **a*b **\n### **a\nb **").
Proof. vm_compute. reflexivity. Qed.

Example scenario_1 :
  fix_md012_multiple_blank_lines (py "a\n\n\n\nb") = Some (py "a\n\nb").
Proof. vm_compute. reflexivity. Qed.

Example scenario_2 : fix_md047_file_ends_newline (py "text") = Some (py "text\n").
Proof. vm_compute. reflexivity. Qed.

Example scenario_3 :
  fix_md047_file_ends_newline (py "text\n\n\n") = Some (py "text\n").
Proof. vm_compute. reflexivity. Qed.

Example scenario_4 :
  fix_md026_trailing_punctuation (py "### Foo:\n") = Some (py "### Foo\n").
Proof. vm_compute. reflexivity. Qed.

Example scenario_5 :
  fix_md032_heading_list_spacing (py "### Tools\n- " ++ [check_mark] ++ py " done\n") =
    Some (py "### Tools\n\n- " ++ [check_mark] ++ py " done\n").
Proof. vm_compute. reflexivity. Qed.

End Examples.

(** ** The duplicate-heading rule *)

Section MD024.

Import Py MarkdownFixer Spec.

Lemma occurrences_snoc (base : str) (lines : list str) (line : str) :
  occurrences base (lines ++ [line]) =
  occurrences base lines +
  (if startswith (py "### ") line && bool_decide (md024_base line = base)
   then 1 else 0).
Proof.
  unfold occurrences. rewrite List.filter_app. rewrite length_app.
  cbn [List.filter].
  by destruct (startswith _ line && _).
Qed.

Lemma md024_line_spec (heading_counts : gmap str nat) (new_lines seen after : list str)
    (line : str) :
  counts_of heading_counts seen →
  ∃ heading_counts',
    md024_line (heading_counts, new_lines) line =
      Some (heading_counts',
            new_lines ++ [md024_out (seen ++ line :: after) (length seen) line]) ∧
    counts_of heading_counts' (seen ++ [line]).
Proof.
  intros Hc. unfold md024_line, md024_out.
  replace (take (S (length seen)) (seen ++ line :: after)) with (seen ++ [line]).
  2:{ rewrite (cons_middle line seen after), (assoc_L (++)).
      rewrite take_app_length'; [done|]. rewrite length_app. simpl. lia. }
  destruct (startswith (py "### ") line) eqn:Hh.
  - rewrite occurrences_snoc, Hh.
    rewrite (bool_decide_true (md024_base line = md024_base line)) by done.
    simpl andb. cbv iota.
    pose proof (Hc (md024_base line)) as Hb.
    destruct (Nat.eqb_spec (occurrences (md024_base line) seen) 0) as [Hz|Hnz].
    + rewrite bool_decide_false by (rewrite Hb; by intros [? ?]).
      rewrite Hz. simpl. eexists; split; [done|].
      intros base. rewrite occurrences_snoc, Hh. simpl andb.
      destruct (decide (md024_base line = base)) as [<-|Hne].
      * rewrite lookup_insert_eq, bool_decide_true, Hz by done. done.
      * rewrite lookup_insert_ne, bool_decide_false by done.
        rewrite Nat.add_0_r. apply Hc.
    + rewrite bool_decide_true by (rewrite Hb; by eexists).
      rewrite Hb. simpl. rewrite lookup_insert_eq. simpl.
      destruct (Nat.eqb_spec (occurrences (md024_base line) seen + 1) 1) as [?|_]; [lia|].
      eexists; split; [done|].
      intros base. rewrite occurrences_snoc, Hh. simpl andb.
      destruct (decide (md024_base line = base)) as [<-|Hne].
      * rewrite lookup_insert_eq, bool_decide_true by done.
        destruct (Nat.eqb_spec (occurrences (md024_base line) seen + 1) 0); [lia|done].
      * rewrite lookup_insert_ne, bool_decide_false by done.
        rewrite Nat.add_0_r. apply Hc.
  - eexists; split; [done|].
    intros base. rewrite occurrences_snoc, Hh. simpl. rewrite Nat.add_0_r. apply Hc.
Qed.

Lemma md024_loop (after seen : list str) (heading_counts : gmap str nat)
    (new_lines : list str) :
  counts_of heading_counts seen →
  ∃ heading_counts',
    for_each md024_line after (heading_counts, new_lines) =
      Some (heading_counts',
            new_lines ++
            imap (fun i => md024_out (seen ++ after) (length seen + i)) after).
Proof.
  revert seen heading_counts new_lines.
  induction after as [|line after IH]; intros seen heading_counts new_lines Hc.
  - simpl. rewrite app_nil_r. by eexists.
  - destruct (md024_line_spec heading_counts new_lines seen after line Hc)
      as (hc' & Hstep & Hc').
    destruct (IH (seen ++ [line]) hc'
                 (new_lines ++ [md024_out (seen ++ line :: after) (length seen) line]) Hc')
      as (hc'' & Hloop).
    exists hc''. cbn [for_each]. rewrite Hstep. simpl. rewrite Hloop.
    rewrite <- (assoc_L (++)). do 3 f_equal. simpl.
    rewrite Nat.add_0_r. f_equal.
    apply imap_ext. intros i x _. simpl.
    rewrite <- (assoc_L (++)), length_app. simpl. f_equal. lia.
Qed.

Lemma md024_returns (content : str) :
  fix_md024_duplicate_headings content =
    Some (join (py "\n")
            (imap (md024_out (split_go (py "\n") 0 content))
                  (split_go (py "\n") 0 content))).
Proof.
  unfold fix_md024_duplicate_headings. simpl.
  destruct (md024_loop (split_go (py "\n") 0 content) [] ∅ []) as (hc & Hloop).
  { intros base. by rewrite lookup_empty. }
  rewrite Hloop. simpl. done.
Qed.

End MD024.

(** ** The line-length rule *)

Section MD013.

Import Py MarkdownFixer Spec.

Variables (tok : str) (n max_len : Z).

(** The inner loop only appends to [new_lines]. *)
Lemma md013_fold_app (parts : list str) (acc new_lines : list str) (current : str) :
  fold_left (md013_part tok n max_len) parts (acc ++ new_lines, current) =
  (acc ++ (fold_left (md013_part tok n max_len) parts (new_lines, current)).1,
   (fold_left (md013_part tok n max_len) parts (new_lines, current)).2).
Proof.
  revert new_lines current.
  induction parts as [|part parts IH]; intros new_lines current; [done|].
  cbn [fold_left]. unfold md013_part at 2 4 6.
  destruct (len current + len part + n <=? max_len)%Z.
  - apply IH.
  - rewrite <- (assoc_L (++)). apply IH.
Qed.

Lemma md013_split_app (acc : list str) (line : str) :
  md013_split tok n max_len acc line =
  (fun outs => acc ++ outs) <$> md013_split tok n max_len [] line.
Proof.
  unfold md013_split. destruct (split tok line) as [parts|]; [|done]. simpl.
  destruct (first parts) as [current|]; [|done]. simpl.
  rewrite <- (app_nil_r acc) at 1. rewrite md013_fold_app.
  destruct (fold_left _ (drop 1 parts) ([], current)) as [new_lines current'].
  simpl. by rewrite <- (assoc_L (++)).
Qed.

(* Every line the inner loop emits is within the bound, or is the first
    segment, or is one later segment behind the continuation prefix. *)
Local Abbreviation wrapped := (Spec.wrapped tok max_len).

Hypothesis n_is_len : n = len tok.

Lemma md013_fold_wrapped (hd : str) (all parts new_lines : list str) (current : str) :
  parts ⊆ all →
  Forall (wrapped hd all) new_lines → wrapped hd all current →
  Forall (wrapped hd all) (fold_left (md013_part tok n max_len) parts (new_lines, current)).1 ∧
  wrapped hd all (fold_left (md013_part tok n max_len) parts (new_lines, current)).2.
Proof.
  revert new_lines current.
  induction parts as [|part parts IH]; intros new_lines current Hsub Hnew Hcur; [done|].
  cbn [fold_left]. unfold md013_part at 2 4.
  assert (part ∈ all) as Hpart by (apply Hsub; left).
  assert (parts ⊆ all) as Hsub' by (intros x Hx; apply Hsub; by right).
  destruct (Z.leb_spec (len current + len part + n) max_len) as [Hfit|Hover].
  - apply IH; [done|done|]. left.
    unfold len in *. rewrite !length_app. lia.
  - apply IH; [done| |].
    + apply Forall_app. split; [done|]. by apply Forall_singleton.
    + right; right. by exists part.
Qed.

End MD013.

Section MD013Rule.

Import Py MarkdownFixer Spec.

Variable max_len : Z.

Lemma md013_split_returns (tok : str) (n : Z) (line : str) :
  tok ≠ [] → is_Some (md013_split tok n max_len [] line).
Proof.
  intros Htok. unfold md013_split, split. destruct tok as [|c tok]; [done|]. simpl.
  destruct (split_go_cons (c :: tok) 0 line) as (seg & segs & ->). simpl.
  destruct (fold_left _ _ _). by eexists.
Qed.

Lemma md013_line_app (acc : list str) (line : str) :
  md013_line max_len acc line =
  (fun outs => acc ++ outs) <$> md013_line max_len [] line.
Proof.
  unfold md013_line.
  destruct (_ && _ && _); [|done].
  destruct (contains [wide_comma] line); [apply md013_split_app|].
  destruct (contains (py ". ") line); [apply md013_split_app|done].
Qed.

Lemma md013_line_returns (line : str) : is_Some (md013_line max_len [] line).
Proof.
  unfold md013_line.
  destruct (_ && _ && _); [|by eexists].
  destruct (contains [wide_comma] line); [by apply md013_split_returns|].
  destruct (contains (py ". ") line); [by apply md013_split_returns|by eexists].
Qed.

Lemma md013_loop (lines : list str) :
  ∃ outs, ∀ acc, for_each (md013_line max_len) lines acc = Some (acc ++ outs).
Proof.
  induction lines as [|line lines (outs & IH)].
  - exists []. intros acc. simpl. by rewrite app_nil_r.
  - destruct (md013_line_returns line) as (o & Ho).
    exists (o ++ outs). intros acc. cbn [for_each].
    rewrite md013_line_app, Ho. simpl. rewrite IH. by rewrite (assoc_L (++)).
Qed.

(** A line with a pipe or a backtick is passed on as it is. *)
Lemma md013_line_kept (acc : list str) (line : str) :
  contains (py "|") line = true ∨ contains (py "`") line = true →
  md013_line max_len acc line = Some (acc ++ [line]).
Proof.
  intros [H|H]; unfold md013_line; rewrite H; simpl.
  - by rewrite andb_false_r.
  - by rewrite andb_false_r.
Qed.

Lemma md013_around (before after : list str) (line : str) :
  contains (py "|") line = true ∨ contains (py "`") line = true →
  ∃ before' after',
    for_each (md013_line max_len) before [] = Some before' ∧
    for_each (md013_line max_len) after [] = Some after' ∧
    for_each (md013_line max_len) (before ++ line :: after) [] =
      Some (before' ++ line :: after').
Proof.
  intros Hline.
  destruct (md013_loop before) as (b' & Hb), (md013_loop after) as (a' & Ha).
  exists b', a'. rewrite (Hb []), (Ha []). split; [done|]. split; [done|].
  rewrite for_each_app, (Hb []). simpl.
  rewrite md013_line_kept by done. simpl. rewrite Ha.
  by rewrite <- (assoc_L (++)).
Qed.

End MD013Rule.

(** ** Facts about the matcher *)

Section ReFacts.

Import Py Re.

Lemma flat_map_nil_all {A B : Type} (g : A -> list B) (l : list A) :
  (∀ x, x ∈ l → g x = []) → flat_map g l = [].
Proof.
  induction l as [|x l IH]; intros H; [done|]. simpl.
  rewrite (H x) by left. apply IH. intros y Hy. apply H. by right.
Qed.

Lemma startswith_app (w s : str) : startswith w (w ++ s) = true.
Proof. induction w as [|x w IH]; [done|]. simpl. by rewrite N.eqb_refl. Qed.

Lemma startswith_inv (w s : str) :
  startswith w s = true → ∃ s', s = w ++ s'.
Proof.
  revert s. induction w as [|x w IH]; intros s H; [by exists s|].
  destruct s as [|y s]; [done|]. simpl in H.
  apply andb_true_iff in H as [Hxy H]. apply N.eqb_eq in Hxy as ->.
  destruct (IH s H) as (s' & ->). by exists s'.
Qed.

Lemma prev_after_cons (p : option char) (x : char) (w : str) :
  prev_after p (x :: w) = prev_after (Some x) w.
Proof.
  unfold prev_after. destruct w as [|y w]; [done|]. rewrite last_cons_cons.
  destruct (last (y :: w)) eqn:E; [done|]. by apply last_None in E.
Qed.

Lemma prev_after_app (p : option char) (u w : str) :
  prev_after p (u ++ w) = prev_after (prev_after p u) w.
Proof.
  revert p. induction u as [|x u IH]; intros p; [done|].
  simpl app. by rewrite !prev_after_cons, IH.
Qed.

Lemma prev_after_snoc (p : option char) (u : str) (x : char) :
  prev_after p (u ++ [x]) = Some x.
Proof. by rewrite prev_after_app. Qed.

(** *** Literals *)

Lemma m_lit_app (ml : bool) (w s : str) (p : option char) (c : list (nat * str)) :
  m ml (lit w) (MState p (w ++ s) c) = [MState (prev_after p w) s c].
Proof.
  revert p. induction w as [|x w IH]; intros p; [done|].
  cbn [lit m app]. unfold eat. cbn [rest caps]. rewrite N.eqb_refl.
  cbn [flat_map]. rewrite IH, app_nil_r.
  by rewrite prev_after_cons.
Qed.

Lemma m_lit_fail (ml : bool) (w : str) (st : mstate) :
  startswith w (rest st) = false → m ml (lit w) st = [].
Proof.
  revert st. induction w as [|x w IH]; intros [p s c] H; [done|].
  cbn [lit m rest startswith] in *. unfold eat. cbn [rest caps].
  destruct s as [|y s]; [done|].
  destruct (N.eqb_spec x y) as [->|Hne]; [|done]. cbn [andb] in H.
  cbn [flat_map]. rewrite app_nil_r. by apply IH.
Qed.

(** *** Greedy runs over a character class *)

Lemma star_eat (ok : char -> bool) (w s : str) :
  Forall (fun x => ok x = true) w → stops ok s →
  ∀ fuel p c, length w ≤ fuel →
    star (eat ok) fuel (MState p (w ++ s) c) = runs p w s c.
Proof.
  intros Hw Hs. induction Hw as [|x w Hx Hw IH]; intros fuel p c Hfuel.
  - destruct fuel as [|fuel]; [done|]. simpl. unfold eat. simpl.
    destruct s as [|y s]; [done|]. simpl in Hs. by rewrite Hs.
  - destruct fuel as [|fuel]; [simpl in Hfuel; lia|].
    simpl in *. unfold eat. simpl. rewrite Hx. simpl.
    unfold progress. simpl.
    destruct (Nat.ltb_spec (length (w ++ s)) (S (length (w ++ s)))) as [_|?]; [|lia].
    simpl. rewrite app_nil_r. rewrite IH by lia. done.
Qed.

Lemma rep_eat (ok : char -> bool) (w s : str) :
  Forall (fun x => ok x = true) w → stops ok s →
  ∀ min u p c, length u = min → Forall (fun x => ok x = true) u →
    rep (eat ok) min (MState p (u ++ w ++ s) c) = runs (prev_after p u) w s c.
Proof.
  intros Hw Hs min. induction min as [|min IH]; intros u p c Hlen Hu.
  - destruct u; [|done]. cbn [rep rest app]. change (prev_after p []) with p.
    apply star_eat; [done|done|]. rewrite length_app. lia.
  - destruct u as [|x u]; [done|]. inversion Hu as [|? ? Hx Hu']; subst.
    simpl. unfold eat. simpl. rewrite Hx. simpl. rewrite app_nil_r.
    rewrite prev_after_cons. apply IH; [|done]. simpl in Hlen. lia.
Qed.

Lemma rep_eat_short (ok : char -> bool) (u s : str) :
  Forall (fun x => ok x = true) u → stops ok s →
  ∀ min p c, length u < min → rep (eat ok) min (MState p (u ++ s) c) = [].
Proof.
  intros Hu Hs. induction Hu as [|x u Hx Hu IH]; intros min p c Hlen.
  - destruct min as [|min]; [simpl in Hlen; lia|]. simpl. unfold eat. simpl.
    destruct s as [|y s]; [done|]. simpl in Hs. by rewrite Hs.
  - destruct min as [|min]; [simpl in Hlen; lia|]. simpl. unfold eat. simpl.
    rewrite Hx. simpl. rewrite app_nil_r. apply IH. simpl in Hlen. lia.
Qed.

(** Every text is a longest run of the class and a rest. *)
Lemma span_class (ok : char -> bool) (s : str) :
  ∃ w s', s = w ++ s' ∧ Forall (fun x => ok x = true) w ∧ stops ok s'.
Proof.
  induction s as [|x s (w & s' & -> & Hw & Hs)].
  - by exists [], [].
  - destruct (ok x) eqn:Hx.
    + exists (x :: w), s'. by repeat constructor.
    + by exists [], (x :: w ++ s').
Qed.

Lemma head_runs (p : option char) (w s : str) (c : list (nat * str)) :
  head (runs p w s c) = Some (MState (prev_after p w) s c).
Proof.
  revert p. induction w as [|x w IH]; intros p; [done|].
  simpl. rewrite prev_after_cons. specialize (IH (Some x)).
  destruct (runs (Some x) w s c); [done|]. done.
Qed.

(** A continuation that fails on the characters of the run succeeds, if at
    all, behind the whole run. *)
Lemma flat_map_runs (g : mstate -> list mstate) (ok : char -> bool)
    (p : option char) (w s : str) (c : list (nat * str)) :
  (∀ p' x s', ok x = true → g (MState p' (x :: s') c) = []) →
  Forall (fun x => ok x = true) w →
  flat_map g (runs p w s c) = g (MState (prev_after p w) s c).
Proof.
  intros Hg Hw. revert p. induction Hw as [|x w Hx Hw IH]; intros p.
  - simpl. by rewrite app_nil_r.
  - simpl. rewrite flat_map_app. simpl. rewrite Hg by done.
    rewrite !app_nil_r, IH. by rewrite prev_after_cons.
Qed.

(** *** The scan *)

Lemma sub_go_skip (ml : bool) (p : re) (t : list titem) (u s : str) (prev : option char) :
  sub_go ml p t (length u) prev (u ++ s) = sub_go ml p t 0 (prev_after prev u) s.
Proof.
  revert prev. induction u as [|x u IH]; intros prev; [done|].
  simpl. by rewrite IH, prev_after_cons.
Qed.

Lemma sub_go_end (ml : bool) (p : re) (t : list titem) (prev : option char) :
  found ml p prev [] = [] → sub_go ml p t 0 prev [] = [].
Proof. intros H. simpl. by rewrite H. Qed.

Lemma sub_go_copy (ml : bool) (p : re) (t : list titem) (prev : option char)
    (x : char) (s : str) :
  found ml p prev (x :: s) = [] →
  sub_go ml p t 0 prev (x :: s) = x :: sub_go ml p t 0 (Some x) s.
Proof. intros H. simpl. by rewrite H. Qed.

Lemma sub_go_match (ml : bool) (p : re) (t : list titem) (prev : option char)
    (u s : str) (st : mstate) :
  u ≠ [] → head (found ml p prev (u ++ s)) = Some st → rest st = s →
  sub_go ml p t 0 prev (u ++ s) = expand t st ++ sub_go ml p t 0 (prev_after prev u) s.
Proof.
  intros Hu Hhead Hrest. destruct u as [|x u]; [done|].
  cbn [sub_go app]. change (x :: u ++ s) with ((x :: u) ++ s). rewrite Hhead, Hrest.
  rewrite length_app. simpl length.
  replace (S (length u) + length s - length s) with (S (length u)) by lia.
  by rewrite sub_go_skip, prev_after_cons.
Qed.

(** A pattern that matches nowhere leaves the text as it is. *)
Lemma sub_go_unmatched (ml : bool) (p : re) (t : list titem) (s : str) :
  ∀ prev, Spec.unmatched_from ml p prev s → sub_go ml p t 0 prev s = s.
Proof.
  induction s as [|x s IH]; intros prev H.
  - apply sub_go_end. by apply (H [] []).
  - rewrite sub_go_copy by apply (H [] (x :: s) eq_refl).
    f_equal. apply IH. intros before after ->.
    specialize (H (x :: before) after eq_refl). by rewrite prev_after_cons in H.
Qed.

Lemma unmatchedb_spec (ml : bool) (p : re) (s : str) :
  ∀ prev, Spec.unmatchedb ml p prev s = true → Spec.unmatched_from ml p prev s.
Proof.
  induction s as [|x s IH]; intros prev H before after Heq.
  - destruct before; [|done]. simpl in Heq. subst after.
    cbn [Spec.unmatchedb] in H. change (prev_after prev []) with prev.
    by destruct (found ml p prev []).
  - cbn [Spec.unmatchedb] in H.
    destruct (found ml p prev (x :: s)) eqn:Hf; [|done].
    destruct before as [|y before].
    + simpl in Heq. by subst after.
    + simpl in Heq. injection Heq as <- ->. rewrite prev_after_cons.
      by apply (IH (Some x) H before after).
Qed.

Lemma sub_returns (p : re) (t : list titem) (s : str) (flags : bool) :
  template_ok p t = true → sub p t s flags = Some (sub_go flags p t 0 None s).
Proof. intros Ht. unfold sub. by rewrite Ht. Qed.

Lemma sub_unmatched (p : re) (t : list titem) (s : str) (flags : bool) :
  template_ok p t = true → Spec.unmatched flags p s → sub p t s flags = Some s.
Proof. intros Ht H. unfold sub. rewrite Ht. f_equal. by apply sub_go_unmatched. Qed.

End ReFacts.

(** ** The blank-line rule and the trailing-newline rule *)

Section Newlines.

Import Py Re MarkdownFixer Spec.

Local Abbreviation is_nl := (N.eqb nl).

Lemma all_nl_inv (w : str) :
  Forall (fun x => is_nl x = true) w → w = repeat nl (length w).
Proof.
  induction 1 as [|x w Hx _ IH]; [done|].
  apply N.eqb_eq in Hx as <-. simpl. by rewrite <- IH.
Qed.

Lemma head_flat_map {A B : Type} (g : A -> list B) (l : list A) (a : A) (b : B) :
  head l = Some a → head (g a) = Some b → head (flat_map g l) = Some b.
Proof.
  destruct l as [|a' l]; [done|]. intros [= ->] Hb. simpl.
  destruct (g a); [done|]. done.
Qed.

Lemma elem_of_runs (p : option char) (w s : str) (c : list (nat * str)) (st : mstate) :
  st ∈ runs p w s c →
  ∃ w1 w2, w = w1 ++ w2 ∧ st = MState (prev_after p w1) (w2 ++ s) c.
Proof.
  revert p. induction w as [|x w IH]; intros p Hst; simpl in Hst.
  - apply list_elem_of_singleton in Hst as ->. by exists [], [].
  - apply elem_of_app in Hst as [Hst|Hst].
    + destruct (IH _ Hst) as (w1 & w2 & -> & ->).
      exists (x :: w1), w2. by rewrite prev_after_cons.
    + apply list_elem_of_singleton in Hst as ->. by exists [], (x :: w).
Qed.

(** *** [\n{3,}] *)

Lemma found_012_short (prev : option char) (u s : str) :
  Forall (fun x => is_nl x = true) u → stops is_nl s → length u < 3 →
  found NOFLAG md012_pattern prev (u ++ s) = [].
Proof. intros Hu Hs Hlen. unfold found. cbn [m md012_pattern]. by apply rep_eat_short. Qed.

Lemma found_012_long (prev : option char) (w s : str) :
  Forall (fun x => is_nl x = true) w → stops is_nl s → 3 ≤ length w →
  ∃ st, head (found NOFLAG md012_pattern prev (w ++ s)) = Some st ∧ rest st = s.
Proof.
  intros Hw Hs Hlen. unfold found. cbn [m md012_pattern].
  rewrite <- (take_drop 3 w), <- (assoc_L (++)).
  rewrite <- (take_drop 3 w) in Hw. apply Forall_app in Hw as [Hu Hw'].
  rewrite (rep_eat is_nl (drop 3 w) s Hw' Hs 3 (take 3 w)); [|rewrite length_take; lia|done].
  rewrite head_runs. by eexists.
Qed.

Lemma md012_tail (prev : option char) (s : str) :
  stops is_nl s →
  sub_go NOFLAG md012_pattern md012_repl 0 prev s =
  match s with
  | [] => []
  | x :: s' => x :: sub_go NOFLAG md012_pattern md012_repl 0 (Some x) s'
  end.
Proof.
  intros Hs. destruct s as [|x s'].
  - apply sub_go_end. by apply (found_012_short prev [] []); [constructor|done|simpl; lia].
  - apply sub_go_copy.
    by apply (found_012_short prev [] (x :: s')); [constructor|done|simpl; lia].
Qed.

Lemma md012_short_run (w s : str) :
  Forall (fun x => is_nl x = true) w → stops is_nl s → length w < 3 →
  ∀ prev, sub_go NOFLAG md012_pattern md012_repl 0 prev (w ++ s) =
          w ++ sub_go NOFLAG md012_pattern md012_repl 0 (prev_after prev w) s.
Proof.
  intros Hw Hs. induction Hw as [|x w Hx Hw IH]; intros Hlen prev; [done|].
  simpl app. rewrite sub_go_copy.
  - rewrite IH by (simpl in Hlen; lia). by rewrite prev_after_cons.
  - apply (found_012_short prev (x :: w) s); [by constructor|done|done].
Qed.

(** The rule on a run of newlines and what follows it. *)
Lemma md012_run (prev : option char) (w s : str) :
  Forall (fun x => is_nl x = true) w → stops is_nl s →
  sub_go NOFLAG md012_pattern md012_repl 0 prev (w ++ s) =
  capped w ++
  match s with
  | [] => []
  | x :: s' => x :: sub_go NOFLAG md012_pattern md012_repl 0 (Some x) s'
  end.
Proof.
  intros Hw Hs. unfold capped.
  destruct (Nat.leb_spec 3 (length w)) as [Hlong|Hshort].
  - destruct (found_012_long prev w s Hw Hs Hlong) as (st & Hhead & Hrest).
    rewrite (sub_go_match _ _ _ _ w s st); [|intros ->; simpl in Hlong; lia|done|done].
    by rewrite md012_tail.
  - rewrite md012_short_run by done. by rewrite md012_tail.
Qed.

Lemma capped_nl (w : str) :
  Forall (fun x => is_nl x = true) w → Forall (fun x => is_nl x = true) (capped w).
Proof. intros Hw. unfold capped. destruct (3 <=? length w); [|done]. by repeat constructor. Qed.

Lemma capped_capped (w : str) : capped (capped w) = capped w.
Proof.
  unfold capped. destruct (3 <=? length w) eqn:E; [done|]. by rewrite E.
Qed.

Lemma md012_go_idempotent (k : nat) :
  ∀ s prev prev', length s < k →
    sub_go NOFLAG md012_pattern md012_repl 0 prev'
      (sub_go NOFLAG md012_pattern md012_repl 0 prev s) =
    sub_go NOFLAG md012_pattern md012_repl 0 prev s.
Proof.
  induction k as [|k IH]; intros s prev prev' Hlen; [lia|].
  destruct (span_class is_nl s) as (w & s' & -> & Hw & Hs).
  rewrite (md012_run prev) by done.
  destruct s' as [|x s''].
  - rewrite app_nil_r. rewrite <- (app_nil_r (capped w)) at 1.
    rewrite md012_run; [|by apply capped_nl|done].
    by rewrite capped_capped, app_nil_r.
  - rewrite md012_run; [|by apply capped_nl|done].
    rewrite capped_capped. do 2 f_equal. apply IH.
    rewrite length_app in Hlen. simpl in Hlen. lia.
Qed.

Lemma md012_idempotent (x : str) :
  ∃ y, fix_md012_multiple_blank_lines x = Some y ∧
       fix_md012_multiple_blank_lines y = Some y.
Proof.
  unfold fix_md012_multiple_blank_lines. rewrite !sub_returns by done.
  eexists. split; [reflexivity|]. simpl mbind.
  f_equal. apply (md012_go_idempotent (S (length x))). lia.
Qed.

(** *** [\n+$] *)

Lemma found_047_end (prev : option char) :
  found NOFLAG md047_pattern prev [] = [].
Proof. done. Qed.

Lemma found_047_inner (prev : option char) (w : str) (x : char) (s : str) :
  Forall (fun y => is_nl y = true) w → is_nl x = false →
  found NOFLAG md047_pattern prev (w ++ x :: s) = [].
Proof.
  intros Hw Hx. unfold found. cbn [m md047_pattern].
  destruct Hw as [|y w Hy Hw].
  - rewrite (rep_eat_short is_nl [] (x :: s)); [done|constructor|done|simpl; lia].
  - rewrite (rep_eat is_nl w (x :: s) Hw Hx 1 [y]); [|done|by constructor].
    apply flat_map_nil_all. intros st Hst.
    apply elem_of_runs in Hst as (w1 & w2 & -> & ->).
    apply Forall_app in Hw as [_ Hw2].
    unfold at_eol. cbn [rest]. destruct Hw2 as [|z w2 Hz Hw2]; simpl.
    + apply N.eqb_neq in Hx.
      destruct (N.eqb_spec x nl) as [->|_]; [done|done].
    + destruct (z =? nl)%N; [|done]. by destruct w2.
Qed.

Lemma found_047_last (prev : option char) (w : str) :
  Forall (fun y => is_nl y = true) w → w ≠ [] →
  ∃ st, head (found NOFLAG md047_pattern prev w) = Some st ∧ rest st = [].
Proof.
  intros Hw Hne. unfold found. cbn [m md047_pattern].
  destruct Hw as [|y w Hy Hw]; [done|].
  rewrite <- (app_nil_r w).
  rewrite (rep_eat is_nl w [] Hw I 1 [y]); [|done|by constructor].
  exists (MState (prev_after (prev_after prev [y]) w) [] []). split; [|done].
  eapply head_flat_map; [apply head_runs|]. done.
Qed.

(** The rule on a run of newlines and what follows it. *)
Lemma md047_run (prev : option char) (w s : str) :
  Forall (fun y => is_nl y = true) w → stops is_nl s →
  sub_go NOFLAG md047_pattern md047_repl 0 prev (w ++ s) =
  match s with
  | [] => match w with [] => [] | _ :: _ => py "\n" end
  | x :: s' => w ++ x :: sub_go NOFLAG md047_pattern md047_repl 0 (Some x) s'
  end.
Proof.
  intros Hw Hs. destruct s as [|x s'].
  - destruct w as [|y w]; [done|].
    destruct (found_047_last prev (y :: w) Hw) as (st & Hhead & Hrest); [done|].
    rewrite app_nil_r in *. rewrite <- (app_nil_r (y :: w)).
    rewrite (sub_go_match _ _ _ _ (y :: w) [] st); [|done|by rewrite app_nil_r|done].
    by rewrite sub_go_end.
  - simpl in Hs. revert prev. induction Hw as [|y w Hy Hw IH]; intros prev.
    + simpl app. apply sub_go_copy. by apply (found_047_inner prev []).
    + simpl app. rewrite sub_go_copy; [by rewrite IH|].
      apply (found_047_inner prev (y :: w)); [by constructor|done].
Qed.

Lemma last_app_cons {A : Type} (l1 : list A) (x : A) (l2 : list A) :
  last (l1 ++ x :: l2) = last (x :: l2).
Proof.
  induction l1 as [|y l1 IH]; [done|]. simpl app.
  destruct (l1 ++ x :: l2) eqn:E; [by destruct l1|]. by rewrite last_cons_cons.
Qed.

Lemma md047_go_fixed (k : nat) :
  ∀ s prev prev', length s < k → last s = Some nl →
    last (sub_go NOFLAG md047_pattern md047_repl 0 prev s) = Some nl ∧
    sub_go NOFLAG md047_pattern md047_repl 0 prev'
      (sub_go NOFLAG md047_pattern md047_repl 0 prev s) =
    sub_go NOFLAG md047_pattern md047_repl 0 prev s.
Proof.
  induction k as [|k IH]; intros s prev prev' Hlen Hlast; [lia|].
  destruct (span_class is_nl s) as (w & s' & -> & Hw & Hs).
  rewrite (md047_run prev) by done.
  destruct s' as [|x s''].
  - destruct w as [|y w]; [done|]. split; [done|].
    by apply (md047_run prev' [nl] []); [repeat constructor|].
  - rewrite last_app_cons in Hlast.
    assert (last s'' = Some nl) as Hlast'.
    { destruct s'' as [|z s'']; [|by rewrite last_cons_cons in Hlast].
      unfold stops in Hs. simpl in Hlast. injection Hlast as ->.
      by rewrite N.eqb_refl in Hs. }
    rewrite length_app in Hlen. simpl in Hlen.
    destruct (IH s'' (Some x) (Some x)) as [Hl Hfix]; [lia|done|].
    split.
    + rewrite last_app_cons.
      destruct (sub_go _ _ _ 0 (Some x) s'') as [|z out]; [done|].
      by rewrite last_cons_cons.
    + rewrite md047_run by done. by rewrite Hfix.
Qed.

Lemma endswith_one (c : char) (s : str) :
  endswith [c] s = true ↔ last s = Some c.
Proof.
  unfold endswith. simpl rev. rewrite startswith_one.
  destruct s as [|x s _] using rev_ind; [done|].
  rewrite rev_app_distr, last_snoc. simpl.
  rewrite N.eqb_eq. split; congruence.
Qed.

Lemma md047_idempotent (x : str) :
  ∃ y, fix_md047_file_ends_newline x = Some y ∧
       fix_md047_file_ends_newline y = Some y.
Proof.
  unfold fix_md047_file_ends_newline. cbv zeta.
  set (x' := if negb (endswith (py "\n") x) then x ++ py "\n" else x).
  assert (last x' = Some nl) as Hlast.
  { unfold x'. destruct (endswith (py "\n") x) eqn:E; simpl.
    - by apply endswith_one.
    - apply last_snoc. }
  destruct (md047_go_fixed (S (length x')) x' None None) as [Hl Hfix]; [lia|done|].
  rewrite sub_returns by done. eexists. split; [reflexivity|].
  apply endswith_one in Hl. change (py "\n") with [nl]. rewrite Hl.
  simpl negb. cbv iota. rewrite sub_returns by done. simpl mbind. by rewrite Hfix.
Qed.

End Newlines.

Section SingleNewline.

Import Py Re MarkdownFixer Spec.

Local Abbreviation is_nl := (N.eqb nl).

(** A text that ends with one newline, and not with two, is returned as it
    is by the scan for [\n+$]. *)
Lemma md047_go_single (k : nat) :
  ∀ s prev, length s < k → last s = Some nl →
    (∀ s0, s ≠ s0 ++ [nl; nl]) →
    sub_go NOFLAG md047_pattern md047_repl 0 prev s = s.
Proof.
  induction k as [|k IH]; intros s prev Hlen Hlast Htwo; [lia|].
  destruct (span_class is_nl s) as (w & s' & -> & Hw & Hs).
  rewrite (md047_run prev) by done.
  destruct s' as [|x s''].
  - rewrite app_nil_r in *. destruct w as [|y w]; [done|].
    destruct w as [|z w _] using rev_ind.
    + inversion Hw as [|? ? Hy _]; subst. by apply N.eqb_eq in Hy as <-.
    + exfalso. apply Forall_cons in Hw as [Hy Hw]. apply Forall_app in Hw as [Hw Hz].
      apply Forall_inv in Hz. apply N.eqb_eq in Hz as <-.
      destruct w as [|z w _] using rev_ind.
      * apply N.eqb_eq in Hy as <-. by apply (Htwo []).
      * apply Forall_app in Hw as [_ Hz]. apply Forall_inv in Hz.
        apply N.eqb_eq in Hz as <-.
        apply (Htwo (y :: w)). by rewrite <- !(assoc_L (++)).
  - rewrite last_app_cons in Hlast.
    assert (last s'' = Some nl) as Hlast'.
    { destruct s'' as [|z s'']; [|by rewrite last_cons_cons in Hlast].
      unfold stops in Hs. simpl in Hlast. injection Hlast as ->.
      by rewrite N.eqb_refl in Hs. }
    rewrite length_app in Hlen. simpl in Hlen.
    rewrite IH; [done|lia|done|].
    intros s0 ->. apply (Htwo (w ++ x :: s0)). by rewrite <- !(assoc_L (++)).
Qed.

Lemma md047_identity (content : str) :
  last content = Some nl → (∀ s0, content ≠ s0 ++ [nl; nl]) →
  fix_md047_file_ends_newline content = Some content.
Proof.
  intros Hlast Htwo. unfold fix_md047_file_ends_newline. cbv zeta.
  apply endswith_one in Hlast as Hends. change (py "\n") with [nl]. rewrite Hends.
  simpl negb. cbv iota. rewrite sub_returns by done. simpl mbind.
  f_equal. by apply (md047_go_single (S (length content))); [lia|..].
Qed.

End SingleNewline.

(** ** The trailing-colon rule *)

Section MD026.

Import Py Re MarkdownFixer Spec.

Lemma plain_spec (x : char) : plain x = true ↔ x ≠ ch ":" ∧ x ≠ nl.
Proof.
  unfold plain, in_class, one. cbn [existsb fst snd].
  rewrite orb_false_r, negb_true_iff, orb_false_iff, !andb_false_iff.
  rewrite !N.leb_gt. split.
  - intros [H1 H2]. split; intros ->; lia.
  - intros [H1 H2]. lia.
Qed.

Lemma flat_map_map {A B C : Type} (f : A -> B) (g : B -> list C) (l : list A) :
  flat_map g (map f l) = flat_map (fun x => g (f x)) l.
Proof. induction l as [|x l IH]; [done|]. simpl. by rewrite IH. Qed.

Lemma at_eol_multiline (p : option char) (r : str) (c : list (nat * str)) :
  at_eol MULTILINE (MState p r c) = true ↔ r = [] ∨ ∃ r', r = nl :: r'.
Proof.
  unfold at_eol, MULTILINE. cbn [rest]. destruct r as [|z r]; [by split; [left|]|].
  rewrite orb_true_l, andb_true_r, N.eqb_eq. split.
  - intros ->. right. by eexists.
  - by intros [?|[r' [= ->]]].
Qed.

(** Two texts cut at their first newline agree on the line and the rest. *)
Lemma first_line_unique (a b sa sb : str) :
  nl ∉ a → nl ∉ b →
  (sa = [] ∨ ∃ s, sa = nl :: s) → (sb = [] ∨ ∃ s, sb = nl :: s) →
  a ++ sa = b ++ sb → a = b ∧ sa = sb.
Proof.
  revert b. induction a as [|x a IH]; intros b Ha Hb Hsa Hsb Heq.
  - destruct b as [|y b]; [done|]. simpl in Heq.
    apply not_elem_of_cons in Hb as [Hy _].
    destruct Hsa as [->|[s ->]]; [done|]. by injection Heq as <-.
  - apply not_elem_of_cons in Ha as [Hx Ha].
    destruct b as [|y b].
    + simpl in Heq. destruct Hsb as [->|[s ->]]; [done|]. by injection Heq as ->.
    + apply not_elem_of_cons in Hb as [Hy Hb]. simpl in Heq.
      injection Heq as -> Heq. destruct (IH b Ha Hb Hsa Hsb Heq) as [-> ->]. done.
Qed.

Variable marker : str.
Hypothesis marker_nonempty : marker ≠ [].
Hypothesis marker_one_line : nl ∉ marker.

Local Abbreviation P := (md026_pattern marker).
Local Abbreviation T := [TRef 1].

Lemma found_026_not_bol (c0 : char) (s : str) :
  c0 ≠ nl → found MULTILINE P (Some c0) s = [].
Proof.
  intros Hc. unfold found. cbn [m md026_pattern]. unfold at_bol. cbn [Re.prev].
  apply N.eqb_neq in Hc. by rewrite Hc.
Qed.

Lemma found_026_no_marker (prev : option char) (s : str) :
  startswith marker s = false → found MULTILINE P prev s = [].
Proof.
  intros Hs. unfold found. cbn [m md026_pattern].
  destruct (at_bol MULTILINE _); [|done]. cbn [flat_map].
  rewrite m_lit_fail by done. done.
Qed.

(** The matches at a line start, by the run of plain characters [w] behind
    the marker and the text [s] behind the run. *)
Lemma found_026_marker (prev : option char) (w s : str) :
  Forall (fun x => plain x = true) w → stops plain s →
  at_bol MULTILINE (MState prev [] []) = true →
  found MULTILINE P prev (marker ++ w ++ s) =
  match w, s with
  | _ :: _, y :: r =>
      if (ch ":" =? y)%N && at_eol MULTILINE (MState None r [])
      then [MState (Some y) r [(1, marker ++ w)]] else []
  | _, _ => []
  end.
Proof.
  intros Hw Hs Hbol. unfold found, md026_pattern, not_colon_nl. cbn [m].
  fold plain.
  unfold at_bol in *. cbn [Re.prev] in *. rewrite Hbol. cbn [flat_map].
  rewrite m_lit_app. cbn [flat_map map]. rewrite !app_nil_r.
  destruct Hw as [|x w Hx Hw].
  { cbn [app].
    rewrite (rep_eat_short plain [] s); [done|constructor|done|simpl; lia]. }
  rewrite (rep_eat plain w s Hw Hs 1 [x]); [|done|by constructor].
  rewrite flat_map_map.
  rewrite (flat_map_runs _ plain); [|..|done].
  2:{ intros p' y s' Hy. cbn [Re.rest Re.prev Re.caps]. unfold eat. cbn [rest].
      apply plain_spec in Hy as [Hy _].
      destruct (N.eqb_spec (ch ":") y) as [<-|_]; [done|done]. }
  cbn [Re.rest Re.prev Re.caps]. unfold eat at 1. cbn [rest caps].
  destruct s as [|y r]; [done|].
  destruct (N.eqb_spec (ch ":") y) as [<-|_]; [|done]. cbn [flat_map andb].
  rewrite app_nil_r. unfold at_eol. cbn [rest].
  unfold consumed. cbn [rest].
  replace (length (marker ++ (x :: w) ++ ch ":" :: r) - length (ch ":" :: r))
    with (length (marker ++ x :: w)) by (rewrite !length_app; simpl; lia).
  rewrite (assoc_L (++)), take_app_length. done.
Qed.

Lemma found_026_match (prev : option char) (t r : str) :
  at_bol MULTILINE (MState prev [] []) = true →
  t ≠ [] → Forall (fun x => plain x = true) t →
  (r = [] ∨ ∃ r', r = nl :: r') →
  found MULTILINE P prev (marker ++ t ++ ch ":" :: r) =
    [MState (Some (ch ":")) r [(1, marker ++ t)]].
Proof.
  intros Hbol Ht Hplain Hr.
  rewrite (found_026_marker prev t (ch ":" :: r)); [|done|done|done].
  destruct t as [|x t]; [done|]. rewrite N.eqb_refl.
  apply (at_eol_multiline None r []) in Hr. by rewrite Hr.
Qed.

Lemma found_026_inv (prev : option char) (s : str) (st : mstate) (l : list mstate) :
  at_bol MULTILINE (MState prev [] []) = true →
  found MULTILINE P prev s = st :: l →
  ∃ t r, s = marker ++ t ++ ch ":" :: r ∧ t ≠ [] ∧
         Forall (fun x => plain x = true) t ∧
         (r = [] ∨ ∃ r', r = nl :: r') ∧
         st = MState (Some (ch ":")) r [(1, marker ++ t)].
Proof.
  intros Hbol Hf.
  destruct (startswith marker s) eqn:Hm.
  2:{ by rewrite found_026_no_marker in Hf. }
  apply startswith_inv in Hm as (s1 & ->).
  destruct (span_class plain s1) as (w & s2 & -> & Hw & Hs2).
  rewrite found_026_marker in Hf by done.
  destruct w as [|x w]; [done|]. destruct s2 as [|y r]; [done|].
  destruct (N.eqb_spec (ch ":") y) as [<-|_]; [|done]. cbn [andb] in Hf.
  destruct (at_eol MULTILINE (MState None r [])) eqn:Hr; [|done].
  injection Hf as <- _. apply at_eol_multiline in Hr.
  by exists (x :: w), r.
Qed.

(** Inside a line the pattern cannot start, so the text is copied up to the
    end of the line. *)
Lemma md026_inline (u s : str) :
  ∀ c0, c0 ≠ nl → nl ∉ u →
    sub_go MULTILINE P T 0 (Some c0) (u ++ s) =
    u ++ sub_go MULTILINE P T 0 (prev_after (Some c0) u) s.
Proof.
  induction u as [|x u IH]; intros c0 Hc Hu; [done|].
  apply not_elem_of_cons in Hu as [Hx Hu]. simpl app.
  rewrite sub_go_copy by by apply found_026_not_bol.
  rewrite IH by done. by rewrite prev_after_cons.
Qed.

Lemma md026_copy_line (prev : option char) (line s : str) :
  nl ∉ line → found MULTILINE P prev (line ++ s) = [] →
  sub_go MULTILINE P T 0 prev (line ++ s) =
  line ++ sub_go MULTILINE P T 0 (prev_after prev line) s.
Proof.
  intros Hline Hf. destruct line as [|x line]; [done|].
  apply not_elem_of_cons in Hline as [Hx Hline]. simpl app in *.
  rewrite sub_go_copy by done. rewrite md026_inline by done.
  by rewrite prev_after_cons.
Qed.

Lemma startswith_marker_nl (s : str) : startswith marker (nl :: s) = false.
Proof.
  destruct marker as [|x mk] eqn:E; [done|]. simpl.
  apply not_elem_of_cons in marker_one_line as [Hx _].
  destruct (N.eqb_spec x nl) as [->|_]; [done|done].
Qed.

Lemma md026_gap (prev : option char) (s : str) :
  sub_go MULTILINE P T 0 prev (nl :: s) = nl :: sub_go MULTILINE P T 0 (Some nl) s.
Proof. apply sub_go_copy. apply found_026_no_marker. apply startswith_marker_nl. Qed.

Lemma md026_eof (prev : option char) : sub_go MULTILINE P T 0 prev [] = [].
Proof. apply sub_go_end. apply found_026_no_marker. by destruct marker. Qed.

(** One line at a line start: the pass rewrites it or copies it, and goes
    on behind it. *)
Lemma md026_line (prev : option char) (line s : str) :
  at_bol MULTILINE (MState prev [] []) = true →
  nl ∉ line → (s = [] ∨ ∃ s', s = nl :: s') →
  ∃ out, (nl ∉ out) ∧ md026_rel marker line out ∧
         sub_go MULTILINE P T 0 prev (line ++ s) =
         out ++ sub_go MULTILINE P T 0 (prev_after prev line) s.
Proof.
  intros Hbol Hline Hs.
  destruct (found MULTILINE P prev (line ++ s)) as [|st l] eqn:Hf.
  - exists line. split; [done|]. split; [|by apply md026_copy_line].
    split; [|done]. intros t Ht Hplain ->.
    rewrite <- !(assoc_L (++)) in Hf. simpl in Hf.
    by rewrite found_026_match in Hf.
  - destruct (found_026_inv prev (line ++ s) st l Hbol Hf)
      as (t & r & Heq & Ht & Hplain & Hr & ->).
    assert (nl ∉ marker ++ t ++ [ch ":"]) as Hnl.
    { rewrite !elem_of_app. intros [?|[Hin|Hin]]; [done| |].
      - eapply Forall_forall in Hplain; [|done]. by apply plain_spec in Hplain as [_ ?].
      - by apply list_elem_of_singleton in Hin. }
    replace (marker ++ t ++ ch ":" :: r) with ((marker ++ t ++ [ch ":"]) ++ r) in Heq
      by (by rewrite <- !(assoc_L (++))).
    destruct (first_line_unique _ _ _ _ Hline Hnl Hs Hr Heq) as [-> ->].
    exists (marker ++ t). split; [|split].
    + rewrite (assoc_L (++)) in Hnl. by apply not_elem_of_app in Hnl as [? _].
    + split.
      * intros t' _ _ Heq'. apply app_inv_head in Heq'.
        apply app_inv_tail in Heq'. by subst.
      * intros Hm. by rewrite startswith_app in Hm.
    + rewrite (sub_go_match _ _ _ _ _ r (MState (Some (ch ":")) r [(1, marker ++ t)]));
        [|by destruct marker|by rewrite Hf|done].
      unfold expand, group. simpl. by rewrite app_nil_r.
Qed.

(** The pass over a text of newline-free lines works line by line. *)
Lemma md026_lines (lines : list str) :
  ∀ prev line, at_bol MULTILINE (MState prev [] []) = true →
    Forall one_line (line :: lines) →
    ∃ outs, Forall2 (md026_rel marker) (line :: lines) outs ∧
            Forall one_line outs ∧
            sub_go MULTILINE P T 0 prev (join [nl] (line :: lines)) = join [nl] outs.
Proof.
  induction lines as [|l2 lines IH]; intros prev line Hbol Hall.
  - inversion Hall as [|? ? Hline _]; subst.
    destruct (md026_line prev line [] Hbol Hline) as (out & Hout & Hrel & Hgo); [by left|].
    exists [out]. rewrite app_nil_r in Hgo. cbn [join].
    rewrite Hgo, md026_eof, app_nil_r.
    split; [constructor; [done|constructor]|].
    split; [by apply Forall_singleton|done].
  - inversion Hall as [|? ? Hline Hrest]; subst.
    destruct (md026_line prev line (nl :: join [nl] (l2 :: lines)) Hbol Hline)
      as (out & Hout & Hrel & Hgo); [right; by eexists|].
    destruct (IH (Some nl) l2 eq_refl Hrest) as (outs & Hrels & Houts & Hgo').
    exists (out :: outs).
    change (join [nl] (line :: l2 :: lines)) with (line ++ nl :: join [nl] (l2 :: lines)).
    rewrite Hgo, md026_gap, Hgo'.
    split; [by constructor|]. split; [by constructor|].
    inversion Hrels; subst. done.
Qed.

End MD026.

Section MD026Rule.

Import Py Re MarkdownFixer Spec.

Lemma h3_one_line : nl ∉ py "### ".
Proof. apply (bool_decide_unpack _). by vm_compute. Qed.

Lemma h2_one_line : nl ∉ py "## ".
Proof. apply (bool_decide_unpack _). by vm_compute. Qed.

Lemma md026_two_passes (line : str) (lines : list str) :
  Forall one_line (line :: lines) →
  ∃ outs1 outs2,
    Forall2 (md026_rel (py "### ")) (line :: lines) outs1 ∧
    Forall2 (md026_rel (py "## ")) outs1 outs2 ∧
    Forall one_line outs2 ∧
    fix_md026_trailing_punctuation (join [nl] (line :: lines)) = Some (join [nl] outs2).
Proof.
  intros Hall.
  destruct (md026_lines (py "### ") ltac:(done) h3_one_line
              lines None line eq_refl Hall) as (outs1 & Hrel1 & Hall1 & Hgo1).
  destruct outs1 as [|o1 outs1]; [by inversion Hrel1|].
  destruct (md026_lines (py "## ") ltac:(done) h2_one_line
              outs1 None o1 eq_refl Hall1) as (outs2 & Hrel2 & Hall2 & Hgo2).
  exists (o1 :: outs1), outs2. split; [done|]. split; [done|]. split; [done|].
  unfold fix_md026_trailing_punctuation, md026_patterns. cbn [for_each].
  rewrite sub_returns by done. rewrite Hgo1. cbn [mbind option_bind].
  rewrite sub_returns by done. by rewrite Hgo2.
Qed.

End MD026Rule.

(** ** Totality and pass-through *)

Section Total.

Import Py Re MarkdownFixer Spec.

Lemma split_lines (content : str) :
  split (py "\n") content = Some (split_go (py "\n") 0 content).
Proof. done. Qed.

Lemma md001_identity (content : str) :
  fix_md001_heading_increment content = Some content.
Proof.
  unfold fix_md001_heading_increment. rewrite split_lines. cbn [mbind option_bind].
  set (body := fun (st : nat * list str) (line : str) => _).
  assert (∀ lines level result,
            (fold_left body lines (level, result)).2 = result ++ lines) as Hfold.
  { induction lines as [|line lines IH]; intros level result.
    - simpl. by rewrite app_nil_r.
    - assert (∃ level', body (level, result) line = (level', result ++ [line]))
        as (level' & Hbody).
      { unfold body. destruct (startswith (py "##") line); by eexists. }
      cbn [fold_left]. rewrite Hbody, IH. by rewrite <- (assoc_L (++)). }
  specialize (Hfold (split_go (py "\n") 0 content) 0 []).
  destruct (fold_left body _ _) as [level result]. simpl in Hfold. subst result.
  f_equal. apply join_split_one.
Qed.

Lemma md024_out_other (lines : list str) (i : nat) (line : str) :
  startswith (py "### ") line = false → md024_out lines i line = line.
Proof. intros H. unfold md024_out. by rewrite H. Qed.

Lemma md024_identity (content : str) :
  Forall (fun line => startswith (py "### ") line = false)
         (split_go (py "\n") 0 content) →
  fix_md024_duplicate_headings content = Some content.
Proof.
  intros Hall. rewrite md024_returns. f_equal.
  transitivity (join (py "\n") (split_go (py "\n") 0 content));
    [|apply join_split_one].
  f_equal. apply list_eq. intros i. rewrite list_lookup_imap.
  destruct (split_go (py "\n") 0 content !! i) as [line|] eqn:Hi; [|done].
  simpl. f_equal. apply md024_out_other.
  by eapply Forall_lookup_1 in Hall.
Qed.

Lemma md013_returns (content : str) (max_len : Z) :
  is_Some (fix_md013_line_length content max_len).
Proof.
  unfold fix_md013_line_length. rewrite split_lines. cbn [mbind option_bind].
  destruct (md013_loop max_len (split_go (py "\n") 0 content)) as (outs & Hloop).
  rewrite Hloop. by eexists.
Qed.

Lemma md013_identity (content : str) (max_len : Z) :
  Forall (fun line => (len line <= max_len)%Z) (split_go (py "\n") 0 content) →
  fix_md013_line_length content max_len = Some content.
Proof.
  intros Hall. unfold fix_md013_line_length. rewrite split_lines.
  cbn [mbind option_bind].
  assert (∀ lines acc, Forall (fun line => (len line <= max_len)%Z) lines →
            for_each (md013_line max_len) lines acc = Some (acc ++ lines)) as Hloop.
  { induction lines as [|line lines IH]; intros acc Hl.
    - simpl. by rewrite app_nil_r.
    - inversion Hl as [|? ? Hline Hl']; subst. cbn [for_each].
      assert (md013_line max_len acc line = Some (acc ++ [line])) as ->.
      { unfold md013_line.
        by destruct (Z.gtb_spec (len line) max_len) as [?|_]; [lia|]. }
      cbn [mbind option_bind]. rewrite IH by done. by rewrite <- (assoc_L (++)). }
  rewrite Hloop by done. simpl. f_equal. apply join_split_one.
Qed.

Lemma all_rules_return (content : str) :
  Forall (fun rule : str -> option str => is_Some (rule content)) all_rules.
Proof.
  unfold all_rules. repeat apply Forall_cons_2; try apply Forall_nil_2.
  - rewrite md001_identity. by eexists.
  - rewrite md024_returns. by eexists.
  - unfold fix_md026_trailing_punctuation, md026_patterns. cbn [for_each].
    rewrite sub_returns by reflexivity. cbn [mbind option_bind].
    rewrite sub_returns by reflexivity. by eexists.
  - by eexists.
  - by eexists.
  - unfold fix_md030_list_markers. rewrite sub_returns by reflexivity. cbn [mbind option_bind].
    rewrite sub_returns by reflexivity. by eexists.
  - unfold fix_md031_code_blocks. rewrite sub_returns by reflexivity. cbn [mbind option_bind].
    rewrite sub_returns by reflexivity. by eexists.
  - unfold fix_md032_heading_list_spacing.
    rewrite sub_returns by reflexivity. cbn [mbind option_bind].
    rewrite sub_returns by reflexivity. cbn [mbind option_bind].
    rewrite sub_returns by reflexivity. by eexists.
  - by eexists.
  - unfold fix_md036_emphasis_heading.
    rewrite sub_returns by reflexivity. cbn [mbind option_bind].
    rewrite sub_returns by reflexivity. cbn [mbind option_bind].
    rewrite sub_returns by reflexivity. by eexists.
  - unfold fix_md040_code_block_language. rewrite sub_returns by reflexivity. by eexists.
  - unfold fix_md045_image_alt_text. rewrite sub_returns by reflexivity. by eexists.
  - unfold fix_md047_file_ends_newline. cbv zeta. rewrite sub_returns by reflexivity. by eexists.
  - unfold fix_md051_link_fragments, md051_fixes. cbn [for_each].
    do 5 (rewrite sub_returns by reflexivity; cbn [mbind option_bind]).
    rewrite sub_returns by reflexivity. by eexists.
  - unfold fix_md012_multiple_blank_lines. rewrite sub_returns by reflexivity. by eexists.
  - apply md013_returns.
Qed.

Local Ltac pick_unmatched :=
  match goal with
  | H : unmatched ?f ?p ?s |- unmatched ?f ?p ?s => exact H
  end.

(** A rule that only substitutes returns a text none of its patterns
    matches as it is. *)
Lemma rule_patterns_pass (content : str) (rule : str -> option str)
    (pats : list (bool * re)) :
  (rule, pats) ∈ rule_patterns →
  Forall (fun fp : bool * re => unmatched fp.1 fp.2 content) pats →
  rule content = Some content.
Proof.
  intros Hin Hun. unfold rule_patterns in Hin.
  repeat (apply elem_of_cons in Hin as [Heq|Hin]; [injection Heq as -> ->|]).
  all: try (by apply elem_of_nil in Hin).
  all: unfold md051_fixes in *; cbn [map fst snd] in *.
  all: repeat (apply Forall_cons in Hun as [? Hun]).
  all: cbn [fst snd] in *.
  - unfold fix_md026_trailing_punctuation, md026_patterns. cbn [for_each].
    rewrite sub_unmatched; [|reflexivity|pick_unmatched]. cbn [mbind option_bind].
    rewrite sub_unmatched; [done|reflexivity|pick_unmatched].
  - unfold fix_md030_list_markers.
    rewrite sub_unmatched; [|reflexivity|pick_unmatched]. cbn [mbind option_bind].
    rewrite sub_unmatched; [done|reflexivity|pick_unmatched].
  - unfold fix_md031_code_blocks.
    rewrite sub_unmatched; [|reflexivity|pick_unmatched]. cbn [mbind option_bind].
    rewrite sub_unmatched; [done|reflexivity|pick_unmatched].
  - unfold fix_md032_heading_list_spacing.
    rewrite sub_unmatched; [|reflexivity|pick_unmatched]. cbn [mbind option_bind].
    rewrite sub_unmatched; [|reflexivity|pick_unmatched]. cbn [mbind option_bind].
    rewrite sub_unmatched; [done|reflexivity|pick_unmatched].
  - unfold fix_md036_emphasis_heading.
    rewrite sub_unmatched; [|reflexivity|pick_unmatched]. cbn [mbind option_bind].
    rewrite sub_unmatched; [|reflexivity|pick_unmatched]. cbn [mbind option_bind].
    rewrite sub_unmatched; [done|reflexivity|pick_unmatched].
  - unfold fix_md040_code_block_language. rewrite sub_unmatched; [done|reflexivity|pick_unmatched].
  - unfold fix_md045_image_alt_text. rewrite sub_unmatched; [done|reflexivity|pick_unmatched].
  - unfold fix_md051_link_fragments, md051_fixes. cbn [for_each].
    do 5 (rewrite sub_unmatched; [|reflexivity|pick_unmatched]; cbn [mbind option_bind]).
    rewrite sub_unmatched; [done|reflexivity|pick_unmatched].
  - unfold fix_md012_multiple_blank_lines. rewrite sub_unmatched; [done|reflexivity|pick_unmatched].
Qed.

End Total.

(** ** The wrap rule on one over-long line *)

Section MD013Bound.

Import Py MarkdownFixer Spec.

Lemma md013_split_wrapped (tok : str) (n max_len : Z) (line : str) :
  tok ≠ [] → n = len tok →
  ∃ outs, md013_split tok n max_len [] line = Some outs ∧
    ∀ out, out ∈ outs →
      (len out <= max_len)%Z ∨ single_segment tok line out.
Proof.
  intros Htok Hn. unfold md013_split, single_segment, split.
  destruct tok as [|c tok]; [done|]. cbn [mbind option_bind].
  destruct (split_go_cons (c :: tok) 0 line) as (hd & parts & Hsplit).
  rewrite Hsplit. cbn [first lookup list_lookup mbind option_bind drop].
  rewrite drop_0.
  pose proof (md013_fold_wrapped (c :: tok) n max_len Hn hd parts parts [] hd) as Hw.
  destruct (fold_left _ parts ([], hd)) as [new_lines current].
  destruct Hw as [Hnew Hcur]; [done|constructor|by right; left|].
  eexists. split; [done|]. intros out Hout. simpl in Hnew, Hcur.
  assert (wrapped (c :: tok) max_len hd parts out) as [?|[->|(part & Hpart & ->)]].
  { apply elem_of_app in Hout as [Hout|Hout].
    - by eapply Forall_forall in Hnew.
    - by apply list_elem_of_singleton in Hout as ->. }
  - by left.
  - right. eexists. split; [done|]. by left.
  - right. eexists. split; [done|]. right. by exists part.
Qed.

Lemma md013_line_wrapped (max_len : Z) (line : str) :
  (len line > max_len)%Z →
  contains (py "|") line = false → contains (py "`") line = false →
  contains [wide_comma] line = true ∨ contains (py ". ") line = true →
  ∃ outs, md013_line max_len [] line = Some outs ∧
    ∀ out, out ∈ outs →
      (len out <= max_len)%Z ∨
      single_segment (if contains [wide_comma] line then [wide_comma] else py ". ")
                     line out.
Proof.
  intros Hlong Hpipe Htick Htok. unfold md013_line.
  rewrite Hpipe, Htick. destruct (Z.gtb_spec (len line) max_len) as [_|?]; [|lia].
  cbn [negb andb].
  destruct (contains [wide_comma] line) eqn:Hcomma.
  - by apply md013_split_wrapped.
  - destruct Htok as [?|Hdot]; [done|]. rewrite Hdot.
    by apply md013_split_wrapped.
Qed.

End MD013Bound.

(** ** More on the two newline rules *)

Section NewlineProps.

Import Py Re MarkdownFixer Spec Lines.

Local Abbreviation is_nl := (N.eqb nl).
Local Abbreviation go12 := (sub_go NOFLAG md012_pattern md012_repl 0).
Local Abbreviation go47 := (sub_go NOFLAG md047_pattern md047_repl 0).

Lemma contains_app_r (p a b : str) :
  contains p (a ++ b) = false → contains p b = false.
Proof.
  induction a as [|x a IH]; [done|]. simpl app. cbn [contains].
  intros H. apply orb_false_iff in H as [_ H]. by apply IH.
Qed.

Lemma contains_cons (p : str) (x : char) (s : str) :
  contains p (x :: s) = startswith p (x :: s) || contains p s.
Proof. done. Qed.

(** A run of at most two newlines before another character holds no blank
    run and starts none. *)
Lemma blank_run_short (w : str) (x : char) (s : str) :
  Forall (fun y => is_nl y = true) w → length w < 3 → is_nl x = false →
  contains blank_run (w ++ x :: s) = contains blank_run s.
Proof.
  intros Hw Hlen Hx. rewrite (all_nl_inv w Hw).
  destruct (length w) as [|[|[|n]]]; [| | |lia]; cbn [repeat app];
    rewrite !contains_cons; unfold blank_run; cbn [py py_chars list_ascii_of_string startswith];
    rewrite ?N.eqb_refl, ?Hx; cbn [andb orb]; done.
Qed.

Lemma blank_run_long (w s : str) :
  Forall (fun y => is_nl y = true) w → 3 ≤ length w →
  contains blank_run (w ++ s) = true.
Proof.
  intros Hw Hlen. rewrite (all_nl_inv w Hw).
  destruct (length w) as [|[|[|n]]]; [lia..|]. done.
Qed.

Lemma capped_short (w : str) : length w < 3 → capped w = w.
Proof. intros H. unfold capped. by destruct (Nat.leb_spec 3 (length w)); [lia|]. Qed.

Lemma capped_length (w : str) : length (capped w) < 3.
Proof. unfold capped. destruct (Nat.leb_spec 3 (length w)); [simpl; lia|done]. Qed.

Lemma md012_go_no_blank_run (k : nat) :
  ∀ s prev, length s < k → contains blank_run (go12 prev s) = false.
Proof.
  induction k as [|k IH]; intros s prev Hlen; [lia|].
  destruct (span_class is_nl s) as (w & s' & -> & Hw & Hs).
  rewrite md012_run by done. destruct s' as [|x s''].
  - rewrite <- (app_nil_r (capped w ++ [])).
    pose proof (capped_nl w Hw) as Hc. pose proof (capped_length w) as Hl.
    rewrite app_nil_r. rewrite (all_nl_inv _ Hc).
    by destruct (length (capped w)) as [|[|[|n]]]; [| | |lia].
  - rewrite blank_run_short; [|by apply capped_nl|apply capped_length|done].
    apply IH. rewrite length_app in Hlen. simpl in Hlen. lia.
Qed.

Lemma md012_go_fixed (k : nat) :
  ∀ s prev, length s < k → contains blank_run s = false → go12 prev s = s.
Proof.
  induction k as [|k IH]; intros s prev Hlen Hno; [lia|].
  destruct (span_class is_nl s) as (w & s' & -> & Hw & Hs).
  assert (length w < 3) as Hshort.
  { destruct (Nat.leb_spec 3 (length w)) as [Hl|?]; [|lia].
    by rewrite blank_run_long in Hno. }
  rewrite md012_run, capped_short by done. destruct s' as [|x s'']; [done|].
  do 2 f_equal. apply IH.
  - rewrite length_app in Hlen. simpl in Hlen. lia.
  - apply contains_app_r in Hno. rewrite contains_cons in Hno.
    by apply orb_false_iff in Hno as [_ ?].
Qed.

(** The blank-line rule keeps every character that is not a newline, and
    makes no text longer. *)
Lemma md012_go_text (k : nat) :
  ∀ s prev, length s < k →
    List.filter non_nl (go12 prev s) = List.filter non_nl s ∧
    length (go12 prev s) ≤ length s.
Proof.
  induction k as [|k IH]; intros s prev Hlen; [lia|].
  destruct (span_class is_nl s) as (w & s' & -> & Hw & Hs).
  rewrite md012_run by done.
  assert (∀ u, Forall (fun y => is_nl y = true) u → List.filter non_nl u = []) as Hnone.
  { induction 1 as [|y u Hy _ IHu]; [done|]. simpl. unfold non_nl at 1.
    apply N.eqb_eq in Hy as <-. by rewrite N.eqb_refl. }
  assert (length (capped w) ≤ length w) as Hcap.
  { unfold capped. destruct (Nat.leb_spec 3 (length w)); [simpl; lia|done]. }
  rewrite !List.filter_app, !length_app.
  rewrite (Hnone w Hw), (Hnone (capped w) (capped_nl w Hw)).
  destruct s' as [|x s'']; [simpl; split; [done|lia]|].
  rewrite length_app in Hlen. simpl in Hlen.
  destruct (IH s'' (Some x)) as [Hf Hl]; [lia|].
  simpl. rewrite Hf. split; [done|lia].
Qed.

(** *** Texts as a body and a final run of newlines *)

Lemma repeat_snoc (x : char) (j : nat) : repeat x (S j) = repeat x j ++ [x].
Proof. induction j as [|j IH]; [done|]. simpl in *. by rewrite <- IH. Qed.

Lemma repeat_is_nl (j : nat) : Forall (fun y => is_nl y = true) (repeat nl j).
Proof. induction j as [|j IH]; [done|]. simpl. by constructor. Qed.

Lemma trailing_decomp (s : str) :
  ∃ body j, s = body ++ repeat nl j ∧ last body ≠ Some nl.
Proof.
  induction s as [|x s (body & j & -> & Hb)] using rev_ind.
  - by exists [], 0.
  - destruct (N.eqb_spec x nl) as [->|Hx].
    + exists body, (S j). by rewrite repeat_snoc, (assoc_L (++)).
    + exists ((body ++ repeat nl j) ++ [x]), 0. rewrite app_nil_r.
      split; [done|]. rewrite last_snoc. congruence.
Qed.

(** A non-empty body that does not end with a newline is a run of
    newlines, another character and a shorter such body. *)
Lemma body_inv (body : str) :
  body ≠ [] → last body ≠ Some nl →
  ∃ w x b, body = w ++ x :: b ∧ Forall (fun y => is_nl y = true) w ∧
           is_nl x = false ∧ last b ≠ Some nl.
Proof.
  intros Hne Hlast.
  destruct (span_class is_nl body) as (w & s' & -> & Hw & Hs).
  destruct s' as [|x b].
  - exfalso. rewrite app_nil_r in *. destruct w as [|y w _] using rev_ind; [done|].
    apply Forall_app in Hw as [_ Hy]. apply Forall_inv in Hy.
    apply N.eqb_eq in Hy as <-. by rewrite last_snoc in Hlast.
  - exists w, x, b. split; [done|]. split; [done|]. split; [done|].
    rewrite last_app_cons in Hlast. destruct b as [|z b]; [done|].
    by rewrite last_cons_cons in Hlast.
Qed.

Lemma last_cons_ne (x : char) (b : str) :
  is_nl x = false → last b ≠ Some nl → last (x :: b) ≠ Some nl.
Proof.
  intros Hx Hb. destruct b as [|z b]; [|by rewrite last_cons_cons].
  simpl. intros [= ->]. by rewrite N.eqb_refl in Hx.
Qed.

Lemma md047_go_body (k : nat) :
  ∀ body j prev, length body < k → last body ≠ Some nl →
    go47 prev (body ++ repeat nl (S j)) = body ++ [nl].
Proof.
  induction k as [|k IH]; intros body j prev Hlen Hlast; [lia|].
  destruct (decide (body = [])) as [->|Hne].
  - rewrite <- (app_nil_r ([] ++ repeat nl (S j))). cbn [app].
    rewrite (md047_run prev (repeat nl (S j)) []); [done| |done].
    apply repeat_is_nl.
  - destruct (body_inv body Hne Hlast) as (w & x & b & -> & Hw & Hx & Hb).
    rewrite <- !(assoc_L (++)). cbn [app].
    rewrite (md047_run prev w (x :: b ++ repeat nl (S j))) by done.
    rewrite IH; [done| |done]. rewrite length_app in Hlen. simpl in Hlen. lia.
Qed.

(** The trailing-newline rule on a body and a final run of newlines. *)
Lemma md047_of_body (body : str) (j : nat) :
  last body ≠ Some nl →
  fix_md047_file_ends_newline (body ++ repeat nl j) = Some (body ++ [nl]).
Proof.
  intros Hlast. unfold fix_md047_file_ends_newline. cbv zeta.
  rewrite sub_returns by done. cbn [mbind option_bind]. f_equal.
  change (py "\n") with [nl].
  destruct j as [|j].
  - rewrite app_nil_r.
    destruct (endswith [nl] body) eqn:E; [by apply endswith_one in E|].
    cbn [negb]. apply (md047_go_body (S (length body)) body 0); [lia|done].
  - assert (endswith [nl] (body ++ repeat nl (S j)) = true) as ->.
    { apply endswith_one. by rewrite repeat_snoc, (assoc_L (++)), last_snoc. }
    cbn [negb]. apply (md047_go_body (S (length body))); [lia|done].
Qed.

Lemma md012_go_body (k : nat) :
  ∀ body w prev, length body < k → last body ≠ Some nl →
    Forall (fun y => is_nl y = true) w →
    go12 prev (body ++ w) = go12 prev body ++ capped w ∧
    last (go12 prev body) ≠ Some nl.
Proof.
  induction k as [|k IH]; intros body w prev Hlen Hlast Hw; [lia|].
  destruct (decide (body = [])) as [->|Hne].
  - cbn [app]. rewrite <- (app_nil_r w) at 1.
    rewrite (md012_run prev w []) by done. by rewrite app_nil_r.
  - destruct (body_inv body Hne Hlast) as (w0 & x & b & -> & Hw0 & Hx & Hb).
    rewrite <- !(assoc_L (++)). cbn [app].
    rewrite (md012_run prev w0 (x :: b ++ w)), (md012_run prev w0 (x :: b)) by done.
    destruct (IH b w (Some x)) as [Hgo Hl]; [|done|done|].
    { rewrite length_app in Hlen. simpl in Hlen. lia. }
    rewrite Hgo. split; [by rewrite <- !(assoc_L (++))|].
    rewrite last_app_cons. by apply last_cons_ne.
Qed.

Lemma endswith_two_newlines (b : str) :
  last b ≠ Some nl → endswith (py "\n\n") (b ++ [nl]) = false.
Proof.
  intros Hb. unfold endswith. rewrite rev_app_distr.
  change (rev (py "\n\n")) with [nl; nl]. cbn [rev app startswith].
  rewrite N.eqb_refl. cbn [andb].
  destruct b as [|y b _] using rev_ind; [done|].
  rewrite rev_app_distr. cbn [rev app startswith]. rewrite last_snoc in Hb.
  destruct (N.eqb_spec nl y) as [<-|_]; [done|done].
Qed.

(** The two newline rules in either order: one result, which holds no
    blank run, ends with one newline and not with two, and which both rules
    return as it is. *)
Lemma newline_rules_normal_form (content : str) :
  ∃ out,
    fix_md012_multiple_blank_lines content ≫= fix_md047_file_ends_newline = Some out ∧
    fix_md047_file_ends_newline content ≫= fix_md012_multiple_blank_lines = Some out ∧
    contains blank_run out = false ∧
    endswith (py "\n") out = true ∧ endswith (py "\n\n") out = false ∧
    fix_md012_multiple_blank_lines out = Some out ∧
    fix_md047_file_ends_newline out = Some out.
Proof.
  destruct (trailing_decomp content) as (body & j & -> & Hlast).
  pose proof (repeat_is_nl j) as Hrun.
  destruct (md012_go_body (S (length body)) body (repeat nl j) None) as [Hgo Hl];
    [lia|done|done|].
  destruct (md012_go_body (S (length body)) body [nl] None) as [Hgo1 _];
    [lia|done|by repeat constructor|].
  set (B := go12 None body) in *.
  exists (B ++ [nl]).
  assert (fix_md012_multiple_blank_lines (body ++ [nl]) = Some (B ++ [nl])) as H12.
  { unfold fix_md012_multiple_blank_lines. rewrite sub_returns by done.
    cbn [mbind option_bind]. by rewrite Hgo1. }
  split; [|split; [|split; [|split; [|split; [|split]]]]].
  - unfold fix_md012_multiple_blank_lines at 1. rewrite sub_returns by done.
    cbn [mbind option_bind]. rewrite Hgo.
    rewrite (all_nl_inv _ (capped_nl _ Hrun)). by apply md047_of_body.
  - rewrite md047_of_body by done. cbn [mbind option_bind]. done.
  - change (B ++ [nl]) with (B ++ capped [nl]). rewrite <- Hgo1.
    apply (md012_go_no_blank_run (S (length (body ++ [nl])))). lia.
  - apply endswith_one. apply last_snoc.
  - by apply endswith_two_newlines.
  - unfold fix_md012_multiple_blank_lines. rewrite sub_returns by done.
    cbn [mbind option_bind]. f_equal.
    apply (md012_go_fixed (S (length (B ++ [nl])))); [lia|].
    change (B ++ [nl]) with (B ++ capped [nl]). rewrite <- Hgo1.
    apply (md012_go_no_blank_run (S (length (body ++ [nl])))). lia.
  - by apply (md047_of_body B 1).
Qed.

End NewlineProps.

(** ** More on the matcher: what a match consumes and captures *)

Section Consumed.

Import Py Re.

(** A match ends at a suffix of the text it started on. *)
Lemma star_suffix (f : mstate -> list mstate) :
  (∀ st st', In st' (f st) → ∃ w, rest st = w ++ rest st') →
  ∀ fuel st st', In st' (star f fuel st) → ∃ w, rest st = w ++ rest st'.
Proof.
  intros Hf. induction fuel as [|fuel IH]; intros st st' Hin; simpl in Hin.
  - destruct Hin as [<-|[]]. by exists [].
  - apply in_app_iff in Hin as [Hin|[<-|[]]]; [|by exists []].
    apply in_flat_map in Hin as (st1 & Hst1 & Hin).
    apply filter_In in Hst1 as [Hst1 _].
    destruct (Hf _ _ Hst1) as (w1 & ->), (IH _ _ Hin) as (w2 & ->).
    exists (w1 ++ w2). by rewrite (assoc_L (++)).
Qed.

Lemma rep_suffix (f : mstate -> list mstate) :
  (∀ st st', In st' (f st) → ∃ w, rest st = w ++ rest st') →
  ∀ min st st', In st' (rep f min st) → ∃ w, rest st = w ++ rest st'.
Proof.
  intros Hf. induction min as [|min IH]; intros st st' Hin; simpl in Hin.
  - by eapply star_suffix.
  - apply in_flat_map in Hin as (st1 & Hst1 & Hin).
    destruct (Hf _ _ Hst1) as (w1 & ->), (IH _ _ Hin) as (w2 & ->).
    exists (w1 ++ w2). by rewrite (assoc_L (++)).
Qed.

Lemma eat_suffix (ok : char -> bool) (st st' : mstate) :
  In st' (eat ok st) → ∃ w, rest st = w ++ rest st'.
Proof.
  unfold eat. destruct (rest st) as [|c s] eqn:E; [done|].
  destruct (ok c); [|done]. intros [<-|[]]. by exists [c].
Qed.

Lemma m_suffix (ml : bool) (r : re) :
  ∀ st st', In st' (m ml r st) → ∃ w, rest st = w ++ rest st'.
Proof.
  induction r as [|c|neg rs|r1 IH1 r2 IH2|r1 IH1 r2 IH2|min r IH|n r IH|r IH| |];
    intros st st' Hin; cbn [m] in Hin.
  - destruct Hin as [<-|[]]. by exists [].
  - by eapply eat_suffix.
  - by eapply eat_suffix.
  - apply in_flat_map in Hin as (st1 & Hst1 & Hin).
    destruct (IH1 _ _ Hst1) as (w1 & ->), (IH2 _ _ Hin) as (w2 & ->).
    exists (w1 ++ w2). by rewrite (assoc_L (++)).
  - apply in_app_iff in Hin as [Hin|Hin]; eauto.
  - by eapply rep_suffix.
  - apply in_map_iff in Hin as (st1 & <- & Hin). cbn [rest]. by apply IH.
  - destruct (m ml r st); [|done]. destruct Hin as [<-|[]]. by exists [].
  - destruct (at_bol ml st); [|done]. destruct Hin as [<-|[]]. by exists [].
  - destruct (at_eol ml st); [|done]. destruct Hin as [<-|[]]. by exists [].
Qed.

(** A pattern without groups leaves the captures as they are. *)
Lemma star_caps (f : mstate -> list mstate) :
  (∀ st st', In st' (f st) → caps st' = caps st) →
  ∀ fuel st st', In st' (star f fuel st) → caps st' = caps st.
Proof.
  intros Hf. induction fuel as [|fuel IH]; intros st st' Hin; simpl in Hin.
  - by destruct Hin as [<-|[]].
  - apply in_app_iff in Hin as [Hin|[<-|[]]]; [|done].
    apply in_flat_map in Hin as (st1 & Hst1 & Hin).
    apply filter_In in Hst1 as [Hst1 _].
    by rewrite (IH _ _ Hin), (Hf _ _ Hst1).
Qed.

Lemma rep_caps (f : mstate -> list mstate) :
  (∀ st st', In st' (f st) → caps st' = caps st) →
  ∀ min st st', In st' (rep f min st) → caps st' = caps st.
Proof.
  intros Hf. induction min as [|min IH]; intros st st' Hin; simpl in Hin.
  - by eapply star_caps.
  - apply in_flat_map in Hin as (st1 & Hst1 & Hin).
    by rewrite (IH _ _ Hin), (Hf _ _ Hst1).
Qed.

Lemma eat_caps (ok : char -> bool) (st st' : mstate) :
  In st' (eat ok st) → caps st' = caps st.
Proof.
  unfold eat. destruct (rest st) as [|c s]; [done|].
  destruct (ok c); [|done]. by intros [<-|[]].
Qed.

Lemma m_caps (ml : bool) (r : re) :
  groups r = [] → ∀ st st', In st' (m ml r st) → caps st' = caps st.
Proof.
  induction r as [|c|neg rs|r1 IH1 r2 IH2|r1 IH1 r2 IH2|min r IH|n r IH|r IH| |];
    intros Hg st st' Hin; cbn [m groups] in *.
  - by destruct Hin as [<-|[]].
  - by eapply eat_caps.
  - by eapply eat_caps.
  - apply app_eq_nil in Hg as [Hg1 Hg2].
    apply in_flat_map in Hin as (st1 & Hst1 & Hin).
    by rewrite (IH2 Hg2 _ _ Hin), (IH1 Hg1 _ _ Hst1).
  - apply app_eq_nil in Hg as [Hg1 Hg2].
    apply in_app_iff in Hin as [Hin|Hin]; eauto.
  - eapply rep_caps; [|done]. by apply IH.
  - done.
  - destruct (m ml r st); [|done]. by destruct Hin as [<-|[]].
  - destruct (at_bol ml st); [|done]. by destruct Hin as [<-|[]].
  - destruct (at_eol ml st); [|done]. by destruct Hin as [<-|[]].
Qed.

Lemma consumed_app (p p' : option char) (w s : str) (c c' : list (nat * str)) :
  consumed (MState p (w ++ s) c) (MState p' s c') = w.
Proof.
  unfold consumed. cbn [rest]. rewrite length_app.
  replace (length w + length s - length s) with (length w) by lia.
  apply take_app_length.
Qed.

(** A group around a pattern without groups captures what the pattern
    consumed. *)
Lemma m_group (ml : bool) (n : nat) (r : re) (st st' : mstate) :
  groups r = [] → In st' (m ml (Grp n r) st) →
  ∃ w, rest st = w ++ rest st' ∧ caps st' = (n, w) :: caps st.
Proof.
  intros Hg Hin. cbn [m] in Hin. apply in_map_iff in Hin as (st1 & <- & Hin).
  destruct (m_suffix ml r _ _ Hin) as (w & Hw). exists w. cbn [rest caps].
  split; [done|]. rewrite (m_caps ml r Hg _ _ Hin).
  destruct st as [p s c], st1 as [p1 s1 c1]. cbn [rest caps] in *. subst s.
  by rewrite consumed_app.
Qed.

End Consumed.

(** ** Substitutions that keep a relation between a text and its
       replacement *)

Section SubRel.

Import Py Re.

Variable Q : str -> str -> Prop.
Hypothesis Q_nil : Q [] [].
Hypothesis Q_one : ∀ x, Q [x] [x].
Hypothesis Q_app : ∀ a a' b b', Q a a' → Q b b' → Q (a ++ b) (a' ++ b').

Variables (ml : bool) (p : re) (t : list titem).

(** Every match relates what it consumed to what replaces it. *)
Hypothesis Q_match :
  ∀ prev w s st, In st (found ml p prev (w ++ s)) → rest st = s →
    Q w (expand t st).

Lemma head_In {A : Type} (l : list A) (x : A) : head l = Some x → In x l.
Proof. destruct l; [done|]. intros [= ->]. by left. Qed.

Lemma sub_go_rel (k : nat) :
  ∀ s prev, length s < k → Q s (sub_go ml p t 0 prev s).
Proof.
  induction k as [|k IH]; intros s prev Hlen; [lia|].
  destruct s as [|c s'].
  - cbn [sub_go]. destruct (head (found ml p prev [])) as [st|] eqn:Hh; [|done].
    apply head_In in Hh as Hin.
    destruct (m_suffix ml p _ _ Hin) as (w & Hw). cbn [rest] in Hw.
    symmetry in Hw. apply app_eq_nil in Hw as [-> Hr].
    by apply (Q_match prev [] [] st).
  - cbn [sub_go]. simpl in Hlen.
    assert (Q (c :: s') (c :: sub_go ml p t 0 (Some c) s')) as Hcopy.
    { apply (Q_app [c] [c]); [done|]. apply IH. lia. }
    destruct (head (found ml p prev (c :: s'))) as [st|] eqn:Hh; [|done].
    apply head_In in Hh as Hin.
    destruct (m_suffix ml p _ _ Hin) as (w & Hw). cbn [rest] in Hw.
    assert (Q w (expand t st)) as Hq.
    { apply (Q_match prev w (rest st) st); [by rewrite <- Hw|done]. }
    assert (length (c :: s') - length (rest st) = length w) as ->.
    { rewrite Hw, length_app. lia. }
    destruct w as [|x w].
    + cbn [length]. apply (Q_app [] (expand t st) (c :: s')); [done|].
      destruct (head (List.filter _ _)) as [st2|] eqn:Hh2; [|done].
      apply head_In, filter_In in Hh2 as [Hin2 Hlt].
      apply Nat.ltb_lt in Hlt.
      destruct (m_suffix ml p _ _ Hin2) as (w2 & Hw2). cbn [rest] in Hw2.
      assert (Q w2 (expand t st2)) as Hq2.
      { apply (Q_match prev w2 (rest st2) st2); [by rewrite <- Hw2|done]. }
      assert (S (length s') - length (rest st2) - 1 = length w2 - 1) as ->.
      { pose proof (f_equal length Hw2) as HL. rewrite length_app in HL.
        simpl in HL. lia. }
      destruct w2 as [|x2 w2].
      { simpl in Hw2. rewrite <- Hw2 in Hlt. simpl in Hlt. lia. }
      replace (length (x2 :: w2) - 1) with (length w2) by (simpl; lia).
      injection Hw2 as -> ->. rewrite sub_go_skip.
      apply (Q_app (x2 :: w2)); [done|]. apply IH. rewrite length_app in Hlen. lia.
    + cbn [length]. injection Hw as -> ->. rewrite sub_go_skip.
      apply (Q_app (x :: w)); [done|]. apply IH. rewrite length_app in Hlen. lia.
Qed.

Lemma sub_rel (s : str) :
  template_ok p t = true →
  ∃ out, sub p t s ml = Some out ∧ Q s out.
Proof.
  intros Ht. rewrite sub_returns by done. eexists. split; [done|].
  apply (sub_go_rel (S (length s))). lia.
Qed.

End SubRel.

(** ** Rules that only put characters in *)

Section InsertOnly.

Import Py Re MarkdownFixer Spec Lines.

Lemma m_seq (ml : bool) (r1 r2 : re) (st : mstate) :
  m ml (r1 ⋅ r2) st = flat_map (m ml r2) (m ml r1 st).
Proof. done. Qed.

Lemma eat_inv (ok : char -> bool) (st st' : mstate) :
  In st' (eat ok st) →
  ∃ c, ok c = true ∧ rest st = c :: rest st' ∧ caps st' = caps st.
Proof.
  unfold eat. destruct (rest st) as [|c s]; [done|].
  destruct (ok c) eqn:Hc; [|done]. intros [<-|[]]. by exists c.
Qed.

(** [(A)\n(B)] replaced by [\1\n\n\2]: the match is a text, a newline and a
    text, and a second newline is put behind the first. *)
Lemma two_groups_match (ml : bool) (A B : re) (prev : option char) (w s : str)
    (st : mstate) :
  groups A = [] → groups B = [] →
  In st (found ml (Grp 1 A ⋅ Chr nl ⋅ Grp 2 B) prev (w ++ s)) → rest st = s →
  ∃ c1 c2, w = c1 ++ nl :: c2 ∧
           expand [TRef 1; TLit (py "\n\n"); TRef 2] st = c1 ++ py "\n\n" ++ c2.
Proof.
  intros HA HB Hin Hrest. unfold found in Hin. rewrite m_seq in Hin.
  apply in_flat_map in Hin as (st1 & Hst1 & Hin).
  apply (m_group ml 1 A _ _ HA) in Hst1 as (c1 & Hr1 & Hc1).
  rewrite m_seq in Hin. apply in_flat_map in Hin as (st2 & Hst2 & Hin).
  cbn [m] in Hst2. apply eat_inv in Hst2 as (c & Hc & Hr2 & Hc2).
  apply N.eqb_eq in Hc as <-.
  apply (m_group ml 2 B _ _ HB) in Hin as (c2 & Hr3 & Hc3).
  cbn [rest caps] in *. exists c1, c2. split.
  - rewrite Hr2, Hr3, Hrest in Hr1.
    change (c1 ++ nl :: c2 ++ s) with (c1 ++ (nl :: c2) ++ s) in Hr1.
    rewrite (assoc_L (++)) in Hr1. by apply app_inv_tail in Hr1.
  - unfold expand, group. rewrite Hc3, Hc2, Hc1. cbn. by rewrite app_nil_r.
Qed.

Lemma newlines_added_refl (a : str) : newlines_added a a.
Proof. by split. Qed.

Lemma newlines_added_app (a a' b b' : str) :
  newlines_added a a' → newlines_added b b' → newlines_added (a ++ b) (a' ++ b').
Proof.
  intros [Hs1 Hf1] [Hs2 Hf2]. split; [by apply sublist_app|].
  by rewrite !List.filter_app, Hf1, Hf2.
Qed.

Lemma newlines_added_trans (a b c : str) :
  newlines_added a b → newlines_added b c → newlines_added a c.
Proof.
  intros [Hs1 Hf1] [Hs2 Hf2]. split; [by etrans|]. by rewrite Hf2.
Qed.

Lemma newlines_added_second (c1 c2 : str) :
  newlines_added (c1 ++ nl :: c2) (c1 ++ py "\n\n" ++ c2).
Proof.
  apply newlines_added_app; [apply newlines_added_refl|].
  split; [by apply sublist_cons|done].
Qed.

(** A substitution with a pattern of that shape only puts newlines in. *)
Lemma two_groups_sub (A B : re) (content : str) :
  groups A = [] → groups B = [] →
  ∃ out, sub (Grp 1 A ⋅ Chr nl ⋅ Grp 2 B) [TRef 1; TLit (py "\n\n"); TRef 2]
             content NOFLAG = Some out ∧
         newlines_added content out.
Proof.
  intros HA HB. apply sub_rel.
  - apply newlines_added_refl.
  - intros x. apply newlines_added_refl.
  - apply newlines_added_app.
  - intros prev w s st Hin Hrest.
    destruct (two_groups_match _ _ _ _ _ _ _ HA HB Hin Hrest) as (c1 & c2 & -> & ->).
    apply newlines_added_second.
  - cbn [template_ok forallb groups existsb app]. rewrite HA, HB. done.
Qed.

Lemma md031_after_match (prev : option char) (w s : str) (st : mstate) :
  In st (found NOFLAG md031_after prev (w ++ s)) → rest st = s →
  ∃ c1, w = nl :: c1 ++ [nl] ∧
        expand [TLit (py "\n"); TRef 1; TLit (py "\n\n")] st = nl :: c1 ++ py "\n\n".
Proof.
  intros Hin Hrest. unfold found, md031_after in Hin. rewrite m_seq in Hin.
  apply in_flat_map in Hin as (st1 & Hst1 & Hin).
  cbn [m] in Hst1. apply eat_inv in Hst1 as (c & Hc & Hr1 & Hc1).
  apply N.eqb_eq in Hc as <-.
  rewrite m_seq in Hin. apply in_flat_map in Hin as (st2 & Hst2 & Hin).
  apply (m_group NOFLAG 1) in Hst2 as (c1 & Hr2 & Hc2); [|done].
  cbn [m] in Hin. apply eat_inv in Hin as (c & Hc & Hr3 & Hc3).
  apply N.eqb_eq in Hc as <-.
  cbn [rest caps] in *. exists c1. split.
  - rewrite Hr2, Hr3, Hrest in Hr1.
    replace (nl :: c1 ++ nl :: s) with ((nl :: c1 ++ [nl]) ++ s) in Hr1
      by (cbn [app]; by rewrite <- (assoc_L (++))).
    by apply app_inv_tail in Hr1.
  - unfold expand, group. rewrite Hc3, Hc2. by cbn.
Qed.

Lemma md031_only_newlines (content : str) :
  ∃ out, fix_md031_code_blocks content = Some out ∧ newlines_added content out.
Proof.
  unfold fix_md031_code_blocks.
  destruct (two_groups_sub not_nl
              (lit (py "```") ⋅ Rep 0 (Cls false [(ch "a", ch "z")]) ⋅ Chr nl)
              content) as (out1 & H1 & Hq1); [done|done|].
  fold md031_before in H1. rewrite H1. cbn [mbind option_bind].
  assert (∀ prev w s st,
            In st (found NOFLAG md031_after prev (w ++ s)) → rest st = s →
            newlines_added w (expand [TLit (py "\n"); TRef 1; TLit (py "\n\n")] st))
    as Hmatch.
  { intros prev w s st Hin Hrest.
    destruct (md031_after_match _ _ _ _ Hin Hrest) as (c1 & -> & ->).
    apply (newlines_added_app [nl] [nl]); [apply newlines_added_refl|].
    apply newlines_added_app; [apply newlines_added_refl|].
    split; [by apply sublist_cons|done]. }
  destruct (sub_rel newlines_added (newlines_added_refl [])
              (fun x => newlines_added_refl [x]) newlines_added_app
              NOFLAG md031_after _ Hmatch out1) as (out2 & H2 & Hq2); [done|].
  rewrite H2. exists out2. split; [done|]. by eapply newlines_added_trans.
Qed.

Lemma md032_only_newlines (content : str) :
  ∃ out, fix_md032_heading_list_spacing content = Some out ∧
         newlines_added content out.
Proof.
  unfold fix_md032_heading_list_spacing, md032_h3, md032_h2, md032_bold,
    md032_after, md032_repl.
  destruct (two_groups_sub (lit (py "### ") ⋅ Rep 1 not_nl) marked_bullet content)
    as (out1 & -> & Hq1); [done|done|]. cbn [mbind option_bind].
  destruct (two_groups_sub (lit (py "## ") ⋅ Rep 1 not_nl) marked_bullet out1)
    as (out2 & -> & Hq2); [done|done|]. cbn [mbind option_bind].
  destruct (two_groups_sub (lit (py "**") ⋅ Rep 1 not_nl ⋅ lit (py "**"))
              marked_bullet out2)
    as (out3 & -> & Hq3); [done|done|]. cbn [mbind option_bind].
  exists out3. split; [done|].
  eapply newlines_added_trans; [|done]. by eapply newlines_added_trans.
Qed.

(** A literal matches its own text. *)
Lemma lit_match (ml : bool) (w0 : str) (st0 st : mstate) :
  In st (m ml (lit w0) st0) → rest st0 = w0 ++ rest st ∧ caps st = caps st0.
Proof.
  destruct st0 as [p s0 c0]. intros Hin.
  destruct (startswith w0 s0) eqn:Hs.
  - apply startswith_inv in Hs as (s' & ->). rewrite m_lit_app in Hin.
    by destruct Hin as [<-|[]].
  - by rewrite m_lit_fail in Hin.
Qed.

Lemma lit_found (ml : bool) (w0 : str) (prev : option char) (w s : str) (st : mstate) :
  In st (found ml (lit w0) prev (w ++ s)) → rest st = s → w = w0.
Proof.
  intros Hin Hrest. apply lit_match in Hin as [Hr _]. cbn [rest] in Hr.
  rewrite Hrest in Hr. by apply app_inv_tail in Hr.
Qed.

Lemma bol_lit_found (ml : bool) (w0 : str) (prev : option char) (w s : str)
    (st : mstate) :
  In st (found ml (Bol ⋅ lit w0) prev (w ++ s)) → rest st = s → w = w0.
Proof.
  intros Hin Hrest. unfold found in Hin. rewrite m_seq in Hin.
  apply in_flat_map in Hin as (st1 & Hst1 & Hin). cbn [m] in Hst1.
  destruct (at_bol ml _); [|done]. destruct Hst1 as [<-|[]].
  by eapply lit_found.
Qed.

(** The language rule puts characters in and takes none out, and it keeps
    the newlines as many as they were. *)
Lemma md040_only_inserts (content : str) :
  ∃ out, fix_md040_code_block_language content = Some out ∧
         sublist content out ∧
         List.filter (N.eqb nl) out = List.filter (N.eqb nl) content.
Proof.
  unfold fix_md040_code_block_language.
  set (Q := fun a b : str =>
              sublist a b ∧ List.filter (N.eqb nl) b = List.filter (N.eqb nl) a).
  assert (∀ a a' b b', Q a a' → Q b b' → Q (a ++ b) (a' ++ b')) as Happ.
  { intros a a' b b' [Hs1 Hf1] [Hs2 Hf2]. split; [by apply sublist_app|].
    by rewrite !List.filter_app, Hf1, Hf2. }
  destruct (sub_rel Q ltac:(by split) ltac:(by split) Happ
              NOFLAG md040_pattern [TLit (py "\n```bash\n")]) with (s := content)
    as (out & -> & Hq); [|done|by exists out].
  intros prev w s st Hin Hrest. apply lit_found in Hin as ->; [|done].
  split; [|done]. cbn.
  do 4 apply sublist_skip. do 4 apply sublist_cons. by apply sublist_skip.
Qed.

Lemma same_text_app (a a' b b' : str) :
  same_text a a' → same_text b b' → same_text (a ++ b) (a' ++ b').
Proof. unfold same_text. intros H1 H2. by rewrite !List.filter_app, H1, H2. Qed.

Lemma same_text_trans (a b c : str) :
  same_text a b → same_text b c → same_text a c.
Proof. unfold same_text. congruence. Qed.

(** Texts with the same characters other than newlines have the same
    characters other than whitespace. *)
Lemma same_text_of_non_nl (a b : str) :
  List.filter non_nl b = List.filter non_nl a → same_text a b.
Proof.
  assert (∀ s, List.filter not_space (List.filter non_nl s) = List.filter not_space s)
    as Hff.
  { induction s as [|x s IH]; [done|]. cbn [List.filter]. unfold non_nl at 1.
    destruct (N.eqb_spec x nl) as [->|_]; cbn [negb List.filter]; [done|].
    by rewrite IH. }
  intros H. unfold same_text. by rewrite <- (Hff b), <- (Hff a), H.
Qed.

(** The list-marker rule takes out whitespace only. *)
Lemma md030_same_text (content : str) :
  ∃ out, fix_md030_list_markers content = Some out ∧ same_text content out.
Proof.
  unfold fix_md030_list_markers.
  destruct (sub_rel same_text ltac:(done) ltac:(done) same_text_app
              MULTILINE md030_dash [TLit (py "- ")]) with (s := content)
    as (out1 & -> & Hq1); [|done|].
  { intros prev w s st Hin Hrest. by apply bol_lit_found in Hin as ->. }
  cbn [mbind option_bind].
  destruct (sub_rel same_text ltac:(done) ltac:(done) same_text_app
              MULTILINE md030_star [TLit (py "* ")]) with (s := out1)
    as (out2 & -> & Hq2); [|done|].
  { intros prev w s st Hin Hrest. by apply bol_lit_found in Hin as ->. }
  exists out2. split; [done|]. by eapply same_text_trans.
Qed.

End InsertOnly.

(** ** The wrap rule keeps the text *)

Section MD013Text.

Import Py Re MarkdownFixer Spec Lines.

Lemma split_go_skip (sep u s : str) :
  split_go sep (length u) (u ++ s) = split_go sep 0 s.
Proof. induction u as [|x u IH]; [done|]. simpl. apply IH. Qed.

Lemma join_cons (sep x : str) (l : list str) :
  l ≠ [] → join sep (x :: l) = x ++ sep ++ join sep l.
Proof. by destruct l. Qed.

(** Joining the segments of a split with the separator gives the text
    back, for every non-empty separator. *)
Lemma join_split_go (sep : str) (k : nat) :
  sep ≠ [] → ∀ s, length s < k → join sep (split_go sep 0 s) = s.
Proof.
  intros Hsep. induction k as [|k IH]; intros s Hlen; [lia|].
  destruct s as [|c s]; [done|]. cbn [split_go].
  destruct (startswith sep (c :: s)) eqn:Hs.
  - apply startswith_inv in Hs as (s2 & Hs2).
    destruct sep as [|c' sep']; [done|]. simpl in Hs2. injection Hs2 as <- ->.
    replace (length (c :: sep') - 1) with (length sep') by (simpl; lia).
    rewrite split_go_skip.
    destruct (split_go_cons (c :: sep') 0 s2) as (seg & segs & Hsplit).
    rewrite join_cons by (by rewrite Hsplit). cbn [app].
    rewrite IH; [done|]. simpl in Hlen. rewrite length_app in Hlen. lia.
  - destruct (split_go_cons sep 0 s) as (seg & segs & Hsplit).
    specialize (IH s ltac:(simpl in Hlen; lia)). rewrite Hsplit in IH |- *.
    destruct segs; simpl in *; by rewrite IH.
Qed.

Lemma join_as_concat (sep hd : str) (tl : list str) :
  join sep (hd :: tl) = hd ++ concat (map (fun p => sep ++ p) tl).
Proof.
  revert hd. induction tl as [|p tl IH]; intros hd.
  - simpl. by rewrite app_nil_r.
  - rewrite join_cons by done. rewrite IH. simpl. by rewrite <- (assoc_L (++)).
Qed.

Lemma filter_lstrip (s : str) :
  List.filter not_space (lstrip s) = List.filter not_space s.
Proof.
  induction s as [|c s IH]; [done|]. cbn [lstrip].
  destruct (isspace c) eqn:E; [|done].
  cbn [List.filter]. unfold not_space at 2. by rewrite E.
Qed.

Lemma filter_strip (s : str) :
  List.filter not_space (strip s) = List.filter not_space s.
Proof.
  unfold strip. rewrite List.filter_rev, filter_lstrip, List.filter_rev, rev_involutive.
  apply filter_lstrip.
Qed.

(** The inner loop keeps the characters other than whitespace, read in the
    order of the output lines. *)
Lemma md013_fold_text (tok : str) (n max_len : Z) (parts : list str) :
  ∀ new_lines current,
    List.filter not_space
      (concat (fold_left (md013_part tok n max_len) parts (new_lines, current)).1 ++
       (fold_left (md013_part tok n max_len) parts (new_lines, current)).2) =
    List.filter not_space
      (concat new_lines ++ current ++ concat (map (fun p => tok ++ p) parts)).
Proof.
  induction parts as [|part parts IH]; intros new_lines current.
  - simpl. by rewrite app_nil_r.
  - cbn [fold_left]. unfold md013_part at 2 4.
    destruct (len current + len part + n <=? max_len)%Z; rewrite IH.
    + simpl. by rewrite <- !(assoc_L (++)).
    + rewrite concat_app. cbn [concat map]. rewrite app_nil_r.
      rewrite !List.filter_app, filter_strip.
      change (List.filter not_space (py "  ")) with (@nil N).
      cbn [app]. by rewrite <- !(assoc_L (++)).
Qed.

Lemma md013_split_text (tok : str) (n max_len : Z) (line : str) :
  tok ≠ [] →
  ∃ outs, md013_split tok n max_len [] line = Some outs ∧
          same_text line (concat outs).
Proof.
  intros Htok. unfold md013_split, split.
  destruct tok as [|c tok]; [done|]. cbn [mbind option_bind].
  destruct (split_go_cons (c :: tok) 0 line) as (hd & parts & Hsplit).
  rewrite Hsplit. cbn [first lookup list_lookup mbind option_bind drop].
  rewrite drop_0.
  pose proof (md013_fold_text (c :: tok) n max_len parts [] hd) as Hf.
  destruct (fold_left _ parts ([], hd)) as [new_lines current].
  eexists. split; [done|]. unfold same_text. cbn [fst snd] in Hf.
  rewrite concat_app. cbn [concat]. rewrite app_nil_r, Hf.
  rewrite app_nil_l, <- join_as_concat, <- Hsplit.
  by rewrite (join_split_go (c :: tok) (S (length line))) by (done || lia).
Qed.

Lemma md013_line_text (max_len : Z) (line : str) :
  ∃ outs, md013_line max_len [] line = Some outs ∧ same_text line (concat outs).
Proof.
  assert (same_text line (concat [line])) as Hsame.
  { unfold same_text. simpl. by rewrite app_nil_r. }
  unfold md013_line. destruct (_ && _ && _); [|by eexists].
  destruct (contains [wide_comma] line); [by apply md013_split_text|].
  destruct (contains (py ". ") line); [by apply md013_split_text|by eexists].
Qed.

Lemma md013_loop_text (max_len : Z) (lines : list str) :
  ∃ outs, (∀ acc, for_each (md013_line max_len) lines acc = Some (acc ++ outs)) ∧
          same_text (concat lines) (concat outs).
Proof.
  induction lines as [|line lines (outs & IH & Hsame)].
  - exists []. split; [|done]. intros acc. simpl. by rewrite app_nil_r.
  - destruct (md013_line_text max_len line) as (o & Ho & Hline).
    exists (o ++ outs). split.
    + intros acc. cbn [for_each]. rewrite md013_line_app, Ho. simpl.
      rewrite IH. by rewrite (assoc_L (++)).
    + rewrite concat_app. simpl. by apply same_text_app.
Qed.

Lemma filter_join_nl (lines : list str) :
  List.filter not_space (join (py "\n") lines) = List.filter not_space (concat lines).
Proof.
  induction lines as [|l lines IH]; [done|].
  destruct lines as [|l2 lines].
  - simpl. by rewrite app_nil_r.
  - rewrite join_cons by done.
    change (concat (l :: l2 :: lines)) with (l ++ concat (l2 :: lines)).
    rewrite !List.filter_app, IH. done.
Qed.

Lemma md013_same_text (content : str) (max_len : Z) :
  ∃ out, fix_md013_line_length content max_len = Some out ∧ same_text content out.
Proof.
  unfold fix_md013_line_length. rewrite split_lines. cbn [mbind option_bind].
  destruct (md013_loop_text max_len (split_go (py "\n") 0 content)) as (outs & Hloop & Hs).
  rewrite (Hloop []). cbn [mbind option_bind app]. eexists. split; [done|].
  unfold same_text in *. rewrite filter_join_nl, Hs, <- filter_join_nl.
  f_equal. apply (join_split_one nl content).
Qed.

End MD013Text.

(** ** The rule sets *)

Section RuleSets.

Import Py Re MarkdownFixer Spec Lines Package.

Local Abbreviation is_nl := (N.eqb nl).

Lemma filter_non_nl_run (j : nat) : List.filter non_nl (repeat nl j) = [].
Proof. induction j as [|j IH]; [done|]. simpl. apply IH. Qed.

(** The trailing-newline rule: the end of its result, and the characters
    it keeps. *)
Lemma md047_result (content : str) :
  ∃ out, fix_md047_file_ends_newline content = Some out ∧
         endswith (py "\n") out = true ∧ endswith (py "\n\n") out = false ∧
         List.filter non_nl out = List.filter non_nl content.
Proof.
  destruct (trailing_decomp content) as (body & j & -> & Hlast).
  exists (body ++ [nl]). split; [by apply md047_of_body|].
  split; [apply endswith_one, last_snoc|]. split; [by apply endswith_two_newlines|].
  rewrite !List.filter_app, filter_non_nl_run. done.
Qed.

Lemma md012_result (content : str) :
  ∃ out, fix_md012_multiple_blank_lines content = Some out ∧
         List.filter non_nl out = List.filter non_nl content.
Proof.
  unfold fix_md012_multiple_blank_lines. rewrite sub_returns by done.
  eexists. split; [done|].
  by destruct (md012_go_text (S (length content)) content None); [lia|].
Qed.

Lemma apply_rules_cons (content : str) (rule : str -> option str)
    (rules : list (str -> option str)) :
  apply_rules content (rule :: rules) =
  rule content ≫= fun content' => apply_rules content' rules.
Proof. done. Qed.

Lemma apply_rules_two (content : str) (r1 r2 : str -> option str) :
  apply_rules content [r1; r2] = r1 content ≫= r2.
Proof.
  rewrite apply_rules_cons. destruct (r1 content) as [c1|]; [|done].
  cbn [mbind option_bind]. rewrite apply_rules_cons. by destruct (r2 c1).
Qed.

(** A file name outside the three long rule sets gets the two newline
    rules. *)
Lemma auto_rules_default (name : str) :
  name ≠ py "CONTRIBUTING.md" → name ≠ py "FAQ.md" → name ≠ py "prd.md" →
  auto_rules name = [fix_md012_multiple_blank_lines; fix_md047_file_ends_newline].
Proof.
  intros H1 H2 H3. unfold auto_rules, DOCUMENT_RULES. cbn [list_to_map foldr].
  cbn [fst snd curry uncurry]. rewrite !lookup_insert_ne by done.
  destruct (decide (name = py "USER_GUIDE.md")) as [->|H4].
  { by rewrite lookup_insert_eq. }
  rewrite lookup_insert_ne by done.
  destruct (decide (name = py "API_REFERENCE.md")) as [->|H5].
  { by rewrite lookup_insert_eq. }
  rewrite lookup_insert_ne by done. by rewrite lookup_empty.
Qed.

Lemma auto_rules_prd : auto_rules (py "prd.md") = PRD_RULES.
Proof. by vm_compute. Qed.

(** The rules of every file name are among the sixteen rules. *)
Lemma auto_rules_known (name : str) :
  Forall (fun rule => In rule all_rules) (auto_rules name).
Proof.
  destruct (decide (name = py "CONTRIBUTING.md")) as [->|H1].
  { change (auto_rules (py "CONTRIBUTING.md")) with CONTRIBUTING_RULES.
    unfold CONTRIBUTING_RULES, all_rules, md013_default.
    repeat (apply Forall_cons_2; [cbn [In]; tauto|]). apply Forall_nil_2. }
  destruct (decide (name = py "FAQ.md")) as [->|H2].
  { change (auto_rules (py "FAQ.md")) with FAQ_RULES.
    unfold FAQ_RULES, all_rules.
    repeat (apply Forall_cons_2; [cbn [In]; tauto|]). apply Forall_nil_2. }
  destruct (decide (name = py "prd.md")) as [->|H3].
  { change (auto_rules (py "prd.md")) with PRD_RULES.
    unfold PRD_RULES, all_rules, md013_default.
    repeat (apply Forall_cons_2; [cbn [In]; tauto|]). apply Forall_nil_2. }
  rewrite auto_rules_default by done. unfold all_rules.
  repeat (apply Forall_cons_2; [cbn [In]; tauto|]). apply Forall_nil_2.
Qed.

Lemma apply_rules_returns (rules : list (str -> option str)) :
  Forall (fun rule => In rule all_rules) rules →
  ∀ content, is_Some (apply_rules content rules).
Proof.
  induction 1 as [|rule rules Hrule _ IH]; intros content; [by eexists|].
  rewrite apply_rules_cons.
  pose proof (all_rules_return content) as Hall.
  rewrite Forall_forall in Hall. apply list_elem_of_In in Hrule.
  destruct (Hall rule Hrule) as (c1 & ->). simpl. apply IH.
Qed.

(** The rule set of [prd.md] changes whitespace only and ends the text
    with one newline. *)
Lemma prd_rules_result (content : str) :
  ∃ out, apply_rules content PRD_RULES = Some out ∧ same_text content out ∧
         endswith (py "\n") out = true ∧ endswith (py "\n\n") out = false.
Proof.
  unfold PRD_RULES, md013_default. rewrite apply_rules_cons.
  destruct (md030_same_text content) as (c1 & -> & H1).
  cbn [mbind option_bind]. rewrite apply_rules_cons.
  destruct (md012_result c1) as (c2 & -> & H2).
  cbn [mbind option_bind]. rewrite apply_rules_cons.
  destruct (md031_only_newlines c2) as (c3 & -> & [_ H3]).
  cbn [mbind option_bind]. rewrite apply_rules_cons.
  destruct (md013_same_text c3 default_max_len) as (c4 & -> & H4).
  cbn [mbind option_bind]. rewrite apply_rules_cons.
  destruct (md047_result c4) as (c5 & -> & He1 & He2 & H5).
  cbn [mbind option_bind].
  exists c5. split; [done|]. split; [|done].
  apply same_text_of_non_nl in H2, H3, H5.
  eapply same_text_trans; [|done]. eapply same_text_trans; [|done].
  eapply same_text_trans; [|done]. by eapply same_text_trans.
Qed.

End RuleSets.

(** ** The duplicate-heading rule on headings with distinct keys *)

Section MD024Distinct.

Import Py Re MarkdownFixer Spec Lines.

Local Abbreviation h3 := (startswith (py "### ")).

Lemma occurrences_cons (base line : str) (lines : list str) :
  occurrences base (line :: lines) =
  (if h3 line && bool_decide (md024_base line = base) then 1 else 0) +
  occurrences base lines.
Proof.
  unfold occurrences. cbn [List.filter]. by destruct (h3 line && _).
Qed.

Lemma occurrences_pos (base : str) (lines : list str) :
  0 < occurrences base lines → In base (map md024_base (List.filter h3 lines)).
Proof.
  induction lines as [|line lines IH]; [unfold occurrences; simpl; lia|].
  rewrite occurrences_cons. cbn [List.filter].
  destruct (h3 line); cbn [andb map].
  - case_bool_decide as Hb; [by left|].
    intros H. right. apply IH. lia.
  - intros H. apply IH. lia.
Qed.

Lemma occurrences_distinct (base : str) (lines : list str) :
  List.NoDup (map md024_base (List.filter h3 lines)) → occurrences base lines ≤ 1.
Proof.
  induction lines as [|line lines IH]; [unfold occurrences; simpl; lia|].
  rewrite occurrences_cons. cbn [List.filter].
  destruct (h3 line); cbn [andb map]; [|by intros H; apply IH in H].
  intros Hnd. apply List.NoDup_cons_iff in Hnd as [Hnotin Hnd].
  case_bool_decide as Hb.
  - subst base. destruct (occurrences (md024_base line) lines) as [|n] eqn:E; [lia|].
    exfalso. apply Hnotin, occurrences_pos. lia.
  - by apply IH in Hnd.
Qed.

Lemma occurrences_take (base : str) (n : nat) (lines : list str) :
  occurrences base (take n lines) ≤ occurrences base lines.
Proof.
  rewrite <- (take_drop n lines) at 2. unfold occurrences.
  rewrite List.filter_app, length_app. lia.
Qed.

Lemma md024_distinct (content : str) :
  List.NoDup (map md024_base (List.filter h3 (split_go (py "\n") 0 content))) →
  fix_md024_duplicate_headings content = Some content.
Proof.
  intros Hnd. rewrite md024_returns. f_equal.
  transitivity (join (py "\n") (split_go (py "\n") 0 content));
    [|apply join_split_one].
  f_equal. apply list_eq. intros i. rewrite list_lookup_imap.
  destruct (split_go (py "\n") 0 content !! i) as [line|] eqn:Hi; [|done].
  simpl. f_equal. unfold md024_out.
  destruct (h3 line) eqn:Hh; [|done].
  rewrite (take_S_r _ _ _ Hi), occurrences_snoc, Hh.
  rewrite bool_decide_true by done. cbn [andb].
  pose proof (occurrences_distinct (md024_base line) _ Hnd) as Hle.
  pose proof (occurrences_take (md024_base line) (S i) (split_go (py "\n") 0 content))
    as Hle'.
  rewrite (take_S_r _ _ _ Hi), occurrences_snoc, Hh in Hle'.
  rewrite bool_decide_true in Hle' by done. cbn [andb] in Hle'.
  destruct (Nat.eqb_spec (occurrences (md024_base line)
              (take i (split_go (py "\n") 0 content)) + 1) 1); [done|lia].
Qed.

End MD024Distinct.

(** ** The trailing-colon rule, line by line *)

Section MD026Exact.

Import Py Re MarkdownFixer Spec Lines.

Lemma forallb_Forall (f : char -> bool) (l : str) :
  forallb f l = true ↔ Forall (fun x => f x = true) l.
Proof.
  rewrite forallb_forall, Forall_forall. split; intros H x Hx; apply H;
    by apply list_elem_of_In.
Qed.

(** The two outcomes of [md026_strip]. *)
Lemma md026_strip_cases (marker line : str) :
  md026_strip marker line = line ∨
  ∃ t, t ≠ [] ∧ Forall (fun x => plain x = true) t ∧
       line = marker ++ t ++ [ch ":"] ∧ md026_strip marker line = marker ++ t.
Proof.
  unfold md026_strip. destruct (startswith marker line) eqn:Hm; [|by left].
  apply startswith_inv in Hm as (text & ->). rewrite drop_app_length.
  destruct text as [|c text _] using rev_ind; [by left|].
  rewrite last_snoc, removelast_last, length_app. cbn [length].
  destruct (N.eqb_spec c (ch ":")) as [->|_]; [|by left].
  destruct (Nat.eqb_spec (length text + 1) 1) as [|Hlen]; [by left|].
  destruct (forallb plain text) eqn:Hp; [|by left]. cbn [negb andb].
  right. exists text. split; [|split; [by apply forallb_Forall|done]].
  intros ->. simpl in Hlen. lia.
Qed.

Lemma md026_strip_match (marker t : str) :
  t ≠ [] → Forall (fun x => plain x = true) t →
  md026_strip marker (marker ++ t ++ [ch ":"]) = marker ++ t.
Proof.
  intros Ht Hp. unfold md026_strip. rewrite startswith_app, drop_app_length.
  rewrite last_snoc, removelast_last, length_app, N.eqb_refl. cbn [length].
  destruct (Nat.eqb_spec (length t + 1) 1) as [Hlen|_].
  { destruct t; [done|simpl in Hlen; lia]. }
  apply forallb_Forall in Hp. by rewrite Hp.
Qed.

Lemma md026_strip_one_line (marker line : str) :
  nl ∉ line → nl ∉ md026_strip marker line.
Proof.
  intros Hline. destruct (md026_strip_cases marker line)
    as [->|(t & _ & _ & -> & ->)]; [done|].
  rewrite (assoc_L (++)) in Hline. by apply not_elem_of_app in Hline as [? _].
Qed.

Lemma md026_strip_idem (marker line : str) :
  md026_strip marker (md026_strip marker line) = md026_strip marker line.
Proof.
  destruct (md026_strip_cases marker line) as [H|(t & Ht & Hp & -> & ->)];
    [by rewrite !H|].
  destruct (md026_strip_cases marker (marker ++ t)) as [H|(t' & _ & _ & Heq & _)];
    [done|].
  exfalso. apply app_inv_head in Heq. subst t.
  apply Forall_app in Hp as [_ Hc]. apply Forall_inv in Hc. by vm_compute in Hc.
Qed.

Variable marker : str.
Hypothesis marker_nonempty : marker ≠ [].
Hypothesis marker_one_line : nl ∉ marker.

Local Abbreviation P := (md026_pattern marker).
Local Abbreviation T := [TRef 1].

Lemma md026_line_exact (prev : option char) (line s : str) :
  at_bol MULTILINE (MState prev [] []) = true →
  nl ∉ line → (s = [] ∨ ∃ s', s = nl :: s') →
  sub_go MULTILINE P T 0 prev (line ++ s) =
  md026_strip marker line ++ sub_go MULTILINE P T 0 (prev_after prev line) s.
Proof.
  intros Hbol Hline Hs.
  destruct (found MULTILINE P prev (line ++ s)) as [|st l] eqn:Hf.
  - destruct (md026_strip_cases marker line) as [->|(t & Ht & Hp & -> & _)].
    + by apply md026_copy_line.
    + exfalso. rewrite <- !(assoc_L (++)) in Hf. cbn [app] in Hf.
      by rewrite (found_026_match marker) in Hf.
  - destruct (found_026_inv marker prev (line ++ s) st l Hbol Hf)
      as (t & r & Heq & Ht & Hplain & Hr & ->).
    assert (nl ∉ marker ++ t ++ [ch ":"]) as Hnl.
    { rewrite !elem_of_app. intros [?|[Hin|Hin]]; [done| |].
      - eapply Forall_forall in Hplain; [|done]. by apply plain_spec in Hplain as [_ ?].
      - by apply list_elem_of_singleton in Hin. }
    replace (marker ++ t ++ ch ":" :: r) with ((marker ++ t ++ [ch ":"]) ++ r) in Heq
      by (by rewrite <- !(assoc_L (++))).
    destruct (first_line_unique _ _ _ _ Hline Hnl Hs Hr Heq) as [-> ->].
    rewrite md026_strip_match by done.
    rewrite (sub_go_match _ _ _ _ _ r (MState (Some (ch ":")) r [(1, marker ++ t)]));
      [|by destruct marker|by rewrite Hf|done].
    unfold expand, group. simpl. by rewrite app_nil_r.
Qed.

Lemma md026_lines_exact (lines : list str) :
  ∀ prev line, at_bol MULTILINE (MState prev [] []) = true →
    Forall one_line (line :: lines) →
    sub_go MULTILINE P T 0 prev (join [nl] (line :: lines)) =
    join [nl] (map (md026_strip marker) (line :: lines)).
Proof.
  induction lines as [|l2 lines IH]; intros prev line Hbol Hall.
  - inversion Hall as [|? ? Hline _]; subst. cbn [join map].
    rewrite <- (app_nil_r line) at 1.
    rewrite md026_line_exact; [|done|done|by left].
    by rewrite md026_eof, app_nil_r.
  - inversion Hall as [|? ? Hline Hrest]; subst.
    change (join [nl] (line :: l2 :: lines)) with (line ++ nl :: join [nl] (l2 :: lines)).
    rewrite md026_line_exact; [|done|done|right; by eexists].
    rewrite md026_gap by done. rewrite IH by done. done.
Qed.

End MD026Exact.

Section MD026Whole.

Import Py Re MarkdownFixer Spec Lines.

Lemma split_lines_one_line (s : str) : Forall one_line (split_go [nl] 0 s).
Proof.
  induction s as [|x s IH]; [repeat constructor; apply not_elem_of_nil|].
  rewrite split_one_cons. destruct (N.eqb_spec nl x) as [<-|Hx].
  - constructor; [apply not_elem_of_nil|done].
  - destruct (split_go [nl] 0 s) as [|seg segs].
    + constructor; [|done]. unfold one_line. rewrite list_elem_of_singleton. done.
    + inversion IH; subst. constructor; [|done].
      unfold one_line in *. rewrite elem_of_cons. by intros [?|?].
Qed.

(** Both passes of the rule, on the lines of a text. *)
Lemma md026_by_line (content : str) :
  fix_md026_trailing_punctuation content =
  Some (join (py "\n")
          (map (fun line => md026_strip (py "## ") (md026_strip (py "### ") line))
               (split_go (py "\n") 0 content))).
Proof.
  change (py "\n") with [nl].
  destruct (split_go_cons [nl] 0 content) as (line & lines & Hsplit).
  pose proof (split_lines_one_line content) as Hall.
  rewrite <- (join_split_one nl content) at 1. rewrite Hsplit in *.
  unfold fix_md026_trailing_punctuation, md026_patterns. cbn [for_each].
  rewrite sub_returns by done. cbn [mbind option_bind].
  rewrite (md026_lines_exact (py "### ")); [|done|apply h3_one_line|done|done].
  rewrite sub_returns by done. cbn [mbind option_bind map].
  rewrite (md026_lines_exact (py "## ") ltac:(done) h2_one_line
             (map (md026_strip (py "### ")) lines) None
             (md026_strip (py "### ") line)); [|done|].
  - cbn [map]. by rewrite <- (map_map (md026_strip (py "### ")) (md026_strip (py "## "))).
  - inversion Hall; subst. constructor; [by apply md026_strip_one_line|].
    apply Forall_map. eapply Forall_impl; [done|].
    intros l Hl. by apply md026_strip_one_line.
Qed.

Lemma md026_strip_both_idem (line : str) :
  md026_strip (py "## ") (md026_strip (py "### ")
    (md026_strip (py "## ") (md026_strip (py "### ") line))) =
  md026_strip (py "## ") (md026_strip (py "### ") line).
Proof.
  set (a := md026_strip (py "### ") line).
  assert (md026_strip (py "### ") a = a) as Ha by apply md026_strip_idem.
  destruct (md026_strip_cases (py "## ") a) as [Hb|(t & Ht & Hp & Heq & Hb)].
  - by rewrite Hb, Ha.
  - rewrite Hb.
    assert (md026_strip (py "### ") (py "## " ++ t) = py "## " ++ t) as ->.
    { unfold md026_strip. by destruct t as [|? [|? ?]]. }
    rewrite <- Hb. apply md026_strip_idem.
Qed.

Lemma md026_idempotent (content : str) :
  ∃ out, fix_md026_trailing_punctuation content = Some out ∧
         fix_md026_trailing_punctuation out = Some out.
Proof.
  eexists. split; [apply md026_by_line|]. rewrite md026_by_line. f_equal.
  change (py "\n") with [nl].
  destruct (split_go_cons [nl] 0 content) as (line & lines & Hsplit).
  pose proof (split_lines_one_line content) as Hall. rewrite Hsplit in *.
  cbn [map]. rewrite split_join_one.
  - f_equal. cbn [map]. f_equal; [apply md026_strip_both_idem|].
    rewrite map_map. apply map_ext. intros l. apply md026_strip_both_idem.
  - rewrite <- (map_cons (fun line => md026_strip (py "## ") (md026_strip (py "### ") line))).
    apply Forall_map. eapply Forall_impl; [done|].
    intros l Hl. by do 2 apply md026_strip_one_line.
Qed.

End MD026Whole.

(** ** The list-marker rule, line by line *)

Section BolLit.

Import Py Re MarkdownFixer Spec Lines.

Lemma startswith_line (w l s : str) :
  nl ∉ w → (s = [] ∨ ∃ s', s = nl :: s') →
  startswith w l = false → startswith w (l ++ s) = false.
Proof.
  intros Hw Hs. revert l. induction w as [|y w IH]; intros l Hm; [done|].
  apply not_elem_of_cons in Hw as [Hy Hw].
  destruct l as [|z l].
  - destruct Hs as [->|[s' ->]]; [done|]. simpl.
    by destruct (N.eqb_spec y nl) as [->|_].
  - simpl in *. destruct (y =? z)%N; [|done]. cbn [andb] in *. by apply IH.
Qed.

Variables lead repl : str.
Hypothesis lead_nonempty : lead ≠ [].
Hypothesis lead_one_line : nl ∉ lead.

Local Abbreviation P := (Bol ⋅ lit lead).
Local Abbreviation T := [TLit repl].

Lemma found_lead_not_bol (c0 : char) (s : str) :
  c0 ≠ nl → found MULTILINE P (Some c0) s = [].
Proof.
  intros Hc. unfold found. cbn [m]. unfold at_bol. cbn [Re.prev].
  apply N.eqb_neq in Hc. by rewrite Hc.
Qed.

Lemma found_lead_absent (prev : option char) (s : str) :
  startswith lead s = false → found MULTILINE P prev s = [].
Proof.
  intros Hs. unfold found. cbn [m].
  destruct (at_bol MULTILINE _); [|done]. cbn [flat_map].
  rewrite m_lit_fail by done. done.
Qed.

Lemma found_lead_match (prev : option char) (s : str) :
  at_bol MULTILINE (MState prev [] []) = true →
  found MULTILINE P prev (lead ++ s) = [MState (prev_after prev lead) s []].
Proof.
  intros Hbol. unfold found. cbn [m]. unfold at_bol in *. cbn [Re.prev] in *.
  rewrite Hbol. cbn [flat_map]. by rewrite m_lit_app, app_nil_r.
Qed.

Lemma lead_inline (u s : str) :
  ∀ c0, c0 ≠ nl → nl ∉ u →
    sub_go MULTILINE P T 0 (Some c0) (u ++ s) =
    u ++ sub_go MULTILINE P T 0 (prev_after (Some c0) u) s.
Proof.
  induction u as [|x u IH]; intros c0 Hc Hu; [done|].
  apply not_elem_of_cons in Hu as [Hx Hu]. simpl app.
  rewrite sub_go_copy by by apply found_lead_not_bol.
  rewrite IH by done. by rewrite prev_after_cons.
Qed.

Lemma lead_gap (prev : option char) (s : str) :
  sub_go MULTILINE P T 0 prev (nl :: s) = nl :: sub_go MULTILINE P T 0 (Some nl) s.
Proof.
  apply sub_go_copy. apply found_lead_absent.
  destruct lead as [|x mk] eqn:E; [done|]. simpl.
  apply not_elem_of_cons in lead_one_line as [Hx _].
  by destruct (N.eqb_spec x nl) as [->|_].
Qed.

Lemma lead_eof (prev : option char) : sub_go MULTILINE P T 0 prev [] = [].
Proof. apply sub_go_end. apply found_lead_absent. by destruct lead. Qed.

Lemma last_of_lead : ∃ c, last lead = Some c ∧ c ≠ nl.
Proof.
  destruct lead as [|c w _] using rev_ind; [done|].
  exists c. rewrite last_snoc. split; [done|]. intros ->.
  apply lead_one_line. apply elem_of_app. right. by apply list_elem_of_singleton.
Qed.

Lemma lead_line_exact (prev : option char) (line s : str) :
  at_bol MULTILINE (MState prev [] []) = true → nl ∉ line →
  (s = [] ∨ ∃ s', s = nl :: s') →
  sub_go MULTILINE P T 0 prev (line ++ s) =
  md030_strip lead repl line ++ sub_go MULTILINE P T 0 (prev_after prev line) s.
Proof.
  intros Hbol Hline Hs. unfold md030_strip.
  destruct (startswith lead line) eqn:Hm.
  - apply startswith_inv in Hm as (text & ->). rewrite drop_app_length.
    apply not_elem_of_app in Hline as [_ Htext].
    rewrite <- !(assoc_L (++)).
    rewrite (sub_go_match _ _ _ _ _ _ (MState (prev_after prev lead) (text ++ s) []));
      [|done|by rewrite found_lead_match|done].
    unfold expand. cbn [flat_map]. rewrite app_nil_r. f_equal.
    destruct last_of_lead as (c & Hc & Hne).
    assert (prev_after prev lead = Some c) as -> by (unfold prev_after; by rewrite Hc).
    rewrite lead_inline by done. f_equal. f_equal.
    unfold prev_after. rewrite last_app. destruct (last text); [done|]. by rewrite Hc.
  - destruct line as [|x line]; [done|].
    apply not_elem_of_cons in Hline as [Hx Hline]. simpl app.
    rewrite sub_go_copy.
    + rewrite lead_inline by done. by rewrite prev_after_cons.
    + apply found_lead_absent. change (x :: line ++ s) with ((x :: line) ++ s).
      by apply startswith_line.
Qed.

Lemma lead_lines_exact (lines : list str) :
  ∀ prev line, at_bol MULTILINE (MState prev [] []) = true →
    Forall one_line (line :: lines) →
    sub_go MULTILINE P T 0 prev (join [nl] (line :: lines)) =
    join [nl] (map (md030_strip lead repl) (line :: lines)).
Proof.
  induction lines as [|l2 lines IH]; intros prev line Hbol Hall.
  - inversion Hall as [|? ? Hline _]; subst. cbn [join map].
    rewrite <- (app_nil_r line) at 1.
    rewrite lead_line_exact; [|done|done|by left].
    by rewrite lead_eof, app_nil_r.
  - inversion Hall as [|? ? Hline Hrest]; subst.
    change (join [nl] (line :: l2 :: lines)) with (line ++ nl :: join [nl] (l2 :: lines)).
    rewrite lead_line_exact; [|done|done|right; by eexists].
    rewrite lead_gap. rewrite IH by done. done.
Qed.

End BolLit.

Section MD030Whole.

Import Py Re MarkdownFixer Spec Lines.

Lemma md030_strip_one_line (lead repl line : str) :
  nl ∉ repl → nl ∉ line → nl ∉ md030_strip lead repl line.
Proof.
  intros Hrepl Hline. unfold md030_strip. destruct (startswith lead line); [|done].
  apply not_elem_of_app. split; [done|].
  intros Hin. apply Hline. rewrite <- (take_drop (length lead) line).
  apply elem_of_app. by right.
Qed.

Lemma md030_one_line :
  (nl ∉ py "  - ") ∧ (nl ∉ py "  * ") ∧ (nl ∉ py "- ") ∧ (nl ∉ py "* ").
Proof. repeat split; apply (bool_decide_unpack _); by vm_compute. Qed.

(** Both passes of the rule, on the lines of a text. *)
Lemma md030_by_line (content : str) :
  fix_md030_list_markers content =
  Some (join (py "\n") (map md030_line (split_go (py "\n") 0 content))).
Proof.
  change (py "\n") with [nl].
  destruct (split_go_cons [nl] 0 content) as (line & lines & Hsplit).
  pose proof (split_lines_one_line content) as Hall.
  rewrite <- (join_split_one nl content) at 1. rewrite Hsplit in *.
  destruct md030_one_line as (Hd & Hs & Hrd & Hrs).
  unfold fix_md030_list_markers.
  rewrite sub_returns by done. cbn [mbind option_bind].
  unfold md030_dash.
  rewrite (lead_lines_exact (py "  - ") (py "- ")); [|done|done|done|done].
  rewrite sub_returns by done. cbn [mbind option_bind map].
  unfold md030_star.
  rewrite (lead_lines_exact (py "  * ") (py "* ") ltac:(done) Hs
             (map (md030_strip (py "  - ") (py "- ")) lines) None
             (md030_strip (py "  - ") (py "- ") line)); [|done|].
  - cbn [map]. unfold md030_line.
    by rewrite <- (map_map (md030_strip (py "  - ") (py "- "))
                          (md030_strip (py "  * ") (py "* "))).
  - inversion Hall; subst. constructor; [by apply md030_strip_one_line|].
    apply Forall_map. eapply Forall_impl; [done|].
    intros l Hl. by apply md030_strip_one_line.
Qed.

Lemma md030_line_idem (line : str) : md030_line (md030_line line) = md030_line line.
Proof.
  unfold md030_line, md030_strip.
  destruct (startswith (py "  - ") line) eqn:Hd.
  - by vm_compute.
  - destruct (startswith (py "  * ") line) eqn:Hs.
    + by vm_compute.
    + by rewrite Hd, Hs.
Qed.

Lemma md030_idempotent (content : str) :
  ∃ out, fix_md030_list_markers content = Some out ∧
         fix_md030_list_markers out = Some out.
Proof.
  eexists. split; [apply md030_by_line|]. rewrite md030_by_line. f_equal.
  change (py "\n") with [nl].
  destruct (split_go_cons [nl] 0 content) as (line & lines & Hsplit).
  pose proof (split_lines_one_line content) as Hall. rewrite Hsplit in *.
  destruct md030_one_line as (_ & _ & Hrd & Hrs).
  cbn [map]. rewrite split_join_one.
  - f_equal. cbn [map]. f_equal; [apply md030_line_idem|].
    rewrite map_map. apply map_ext. intros l. apply md030_line_idem.
  - rewrite <- (map_cons md030_line). apply Forall_map. eapply Forall_impl; [done|].
    intros l Hl. unfold md030_line.
    apply md030_strip_one_line; [done|]. by apply md030_strip_one_line.
Qed.

End MD030Whole.

(** ** The image, emphasis and link-fragment rules *)

Section MoreRules.

Import Py Re MarkdownFixer Spec Lines.

Lemma bol_inv (ml : bool) (st st' : mstate) : In st' (m ml Bol st) → st' = st.
Proof. cbn [m]. destruct (at_bol ml st); [|done]. by intros [<-|[]]. Qed.

Lemma eol_inv (ml : bool) (st st' : mstate) : In st' (m ml Eol st) → st' = st.
Proof. cbn [m]. destruct (at_eol ml st); [|done]. by intros [<-|[]]. Qed.

(** A match of a literal, a group and a literal: what it consumed, and
    the group. *)
Lemma lit_group_lit (ml : bool) (a b : str) (r : re) (w s : str) (st0 st : mstate) :
  groups r = [] → caps st0 = [] → rest st0 = w ++ s →
  In st (m ml (lit a ⋅ Grp 1 r ⋅ lit b) st0) → rest st = s →
  ∃ g, w = a ++ g ++ b ∧ caps st = [(1, g)].
Proof.
  intros Hr Hc0 Hr0 Hin Hrest. rewrite m_seq in Hin.
  apply in_flat_map in Hin as (st1 & Hst1 & Hin).
  apply lit_match in Hst1 as [Hr1 Hc1].
  rewrite m_seq in Hin. apply in_flat_map in Hin as (st2 & Hst2 & Hin).
  apply (m_group ml 1 r _ _ Hr) in Hst2 as (g & Hr2 & Hc2).
  apply lit_match in Hin as [Hr3 Hc3].
  exists g. split.
  - rewrite Hr0, Hr2, Hr3, Hrest in Hr1.
    rewrite !(assoc_L (++)) in Hr1. apply app_inv_tail in Hr1.
    by rewrite <- !(assoc_L (++)) in Hr1.
  - by rewrite Hc3, Hc2, Hc1, Hc0.
Qed.

(** The image rule puts characters in and takes none out. *)
Lemma md045_only_inserts (content : str) :
  ∃ out, fix_md045_image_alt_text content = Some out ∧ sublist content out.
Proof.
  unfold fix_md045_image_alt_text.
  destruct (sub_rel sublist ltac:(done) ltac:(done) (@sublist_app char)
              NOFLAG md045_pattern md045_repl) with (s := content)
    as (out & -> & Hq); [|done|by exists out].
  intros prev w s st Hin Hrest. unfold found, md045_pattern in Hin.
  destruct (lit_group_lit NOFLAG _ _ (Rep 1 (Cls true [one dquote])) w s
              (MState prev (w ++ s) []) _ eq_refl eq_refl eq_refl Hin Hrest)
    as (g & -> & Hc).
  unfold expand, group, md045_repl. rewrite Hc. cbn [flat_map List.find fst snd Nat.eqb].
  rewrite app_nil_r. apply sublist_app; [done|]. apply sublist_app; [done|].
  cbn. do 12 apply sublist_skip. do 7 apply sublist_cons. by apply sublist_skip.
Qed.

Lemma same_newlines_app (a a' b b' : str) :
  same_newlines a a' → same_newlines b b' → same_newlines (a ++ b) (a' ++ b').
Proof. unfold same_newlines. intros H1 H2. by rewrite !List.filter_app, H1, H2. Qed.

Lemma md036_spaced_match (prev : option char) (w s : str) (st : mstate) :
  In st (found MULTILINE md036_spaced prev (w ++ s)) → rest st = s →
  expand md036_repl st = py "### " ++ w.
Proof.
  intros Hin Hrest. unfold found, md036_spaced in Hin. rewrite m_seq in Hin.
  apply in_flat_map in Hin as (st1 & Hst1 & Hin). apply bol_inv in Hst1 as ->.
  rewrite m_seq in Hin. apply in_flat_map in Hin as (st2 & Hst2 & Hin).
  apply eol_inv in Hin as ->.
  apply m_group in Hst2 as (g & Hr & Hc); [|done]. cbn [rest caps] in *.
  rewrite Hrest in Hr. apply app_inv_tail in Hr as ->.
  unfold expand, group, md036_repl. rewrite Hc. cbn [flat_map List.find fst snd Nat.eqb].
  by rewrite app_nil_r.
Qed.

Lemma md036_framed_match (a b : str) (r : re) (prev : option char) (w s : str)
    (st : mstate) :
  groups r = [] →
  In st (found MULTILINE (Bol ⋅ lit a ⋅ Grp 1 r ⋅ lit b ⋅ Eol) prev (w ++ s)) →
  rest st = s →
  ∃ g, w = a ++ g ++ b ∧ expand md036_repl st = py "### " ++ g.
Proof.
  intros Hg Hin Hrest. unfold found in Hin. rewrite m_seq in Hin.
  apply in_flat_map in Hin as (st1 & Hst1 & Hin). apply bol_inv in Hst1 as ->.
  rewrite m_seq in Hin. apply in_flat_map in Hin as (st1 & Hst1 & Hin).
  apply lit_match in Hst1 as [Hr1 Hc1].
  rewrite m_seq in Hin. apply in_flat_map in Hin as (st2 & Hst2 & Hin).
  apply (m_group _ 1 r _ _ Hg) in Hst2 as (g & Hr2 & Hc2).
  rewrite m_seq in Hin. apply in_flat_map in Hin as (st3 & Hst3 & Hin).
  apply eol_inv in Hin as ->.
  apply lit_match in Hst3 as [Hr3 Hc3]. cbn [rest caps] in *.
  exists g. split.
  - rewrite Hr2, Hr3, Hrest in Hr1.
    rewrite !(assoc_L (++)) in Hr1. apply app_inv_tail in Hr1.
    by rewrite <- !(assoc_L (++)) in Hr1.
  - unfold expand, group, md036_repl. rewrite Hc3, Hc2, Hc1.
    cbn [flat_map List.find fst snd Nat.eqb]. by rewrite app_nil_r.
Qed.

(** The emphasis rule neither joins nor splits lines. *)
Lemma md036_same_newlines (content : str) :
  ∃ out, fix_md036_emphasis_heading content = Some out ∧ same_newlines content out.
Proof.
  unfold fix_md036_emphasis_heading.
  destruct (sub_rel same_newlines ltac:(done) ltac:(done) same_newlines_app
              MULTILINE md036_spaced md036_repl) with (s := content)
    as (out1 & -> & Hq1); [|done|].
  { intros prev w s st Hin Hrest. by rewrite (md036_spaced_match _ _ _ _ Hin Hrest). }
  cbn [mbind option_bind].
  destruct (sub_rel same_newlines ltac:(done) ltac:(done) same_newlines_app
              MULTILINE md036_bold md036_repl) with (s := out1)
    as (out2 & -> & Hq2); [|done|].
  { intros prev w s st Hin Hrest.
    destruct (md036_framed_match (py "**") (py "**") (Rep 1 not_star) _ _ _ _
                eq_refl Hin Hrest) as (g & -> & ->).
    unfold same_newlines. rewrite !List.filter_app. cbn. by rewrite app_nil_r. }
  cbn [mbind option_bind].
  destruct (sub_rel same_newlines ltac:(done) ltac:(done) same_newlines_app
              MULTILINE md036_strong md036_repl) with (s := out2)
    as (out3 & -> & Hq3); [|done|].
  { intros prev w s st Hin Hrest.
    destruct (md036_framed_match (py "<strong>") (py "</strong>")
                (Rep 1 (Cls true [one (ch "<")])) _ _ _ _
                eq_refl Hin Hrest) as (g & -> & ->).
    unfold same_newlines. rewrite !List.filter_app. cbn. by rewrite app_nil_r. }
  exists out3. split; [done|]. unfold same_newlines in *. congruence.
Qed.

(** A literal that holds [key] matches nowhere in a text without [key]. *)
Lemma lit_unmatched (a key b s : str) :
  contains key s = false → unmatched NOFLAG (lit (a ++ key ++ b)) s.
Proof.
  intros Hs before after ->. unfold found. apply m_lit_fail. cbn [rest].
  destruct (startswith (a ++ key ++ b) after) eqn:Hm; [|done].
  apply startswith_inv in Hm as (r & ->).
  apply contains_app_r in Hs. rewrite <- !(assoc_L (++)) in Hs.
  apply contains_app_r in Hs.
  destruct (key ++ b ++ r) as [|x l] eqn:E.
  - destruct key; [|done]. by destruct b, r.
  - rewrite contains_cons, <- E, startswith_app in Hs. done.
Qed.

Lemma md051_loop_unmatched (fixes : list (re * list titem)) (s : str) :
  Forall (fun pr : re * list titem =>
            template_ok pr.1 pr.2 = true ∧ unmatched NOFLAG pr.1 s) fixes →
  for_each (fun content (pr : re * list titem) =>
              let '(pattern, replacement) := pr in
              sub pattern replacement content NOFLAG) fixes s = Some s.
Proof.
  induction 1 as [|[p t] fixes [Ht Hu] _ IH]; [done|].
  cbn [for_each fst snd] in *. rewrite sub_unmatched by done. done.
Qed.

(** Without the opening of a link to a fragment the link rule changes
    nothing. *)
Lemma md051_untouched (content : str) :
  contains (py "](#") content = false →
  fix_md051_link_fragments content = Some content.
Proof.
  intros H. apply md051_loop_unmatched. unfold md051_fixes.
  repeat (apply List.Forall_cons; [split; [reflexivity|cbn [fst]]|]);
    [..|apply List.Forall_nil].
  - by apply (lit_unmatched (py "[Usage & Features") (py "](#") (py "usage & features)")).
  - by apply (lit_unmatched (py "[Performance") (py "](#") (py "performance)")).
  - by apply (lit_unmatched (py "[Security") (py "](#") (py "security)")).
  - by apply (lit_unmatched (py "[Troubleshooting") (py "](#") (py "troubleshooting)")).
  - by apply (lit_unmatched (py "[Contributing") (py "](#") (py "contributing)")).
  - by apply (lit_unmatched (py "[Licensing") (py "](#") (py "licensing)")).
Qed.

End MoreRules.

(** ** What the rules pass through *)

Section PassThrough.

Import Py Re MarkdownFixer Spec Lines.

(** A line the wrap rule has nothing to do with: within the bound, or with
    a pipe or a backtick, or without a split token. *)
Lemma md013_line_untouched (max_len : Z) (acc : list str) (line : str) :
  (len line <= max_len)%Z ∨ contains (py "|") line = true ∨
  contains (py "`") line = true ∨
  (contains [wide_comma] line = false ∧ contains (py ". ") line = false) →
  md013_line max_len acc line = Some (acc ++ [line]).
Proof.
  intros [H|[H|[H|[H1 H2]]]]; unfold md013_line.
  - by destruct (Z.gtb_spec (len line) max_len) as [?|_]; [lia|].
  - rewrite H. cbn [negb]. by rewrite andb_false_r.
  - rewrite H. cbn [negb]. by rewrite andb_false_r.
  - rewrite H1, H2. by destruct (_ && _ && _).
Qed.

Lemma md013_untouched (content : str) (max_len : Z) :
  Forall (fun line =>
            (len line <= max_len)%Z ∨ contains (py "|") line = true ∨
            contains (py "`") line = true ∨
            (contains [wide_comma] line = false ∧ contains (py ". ") line = false))
         (split_go (py "\n") 0 content) →
  fix_md013_line_length content max_len = Some content.
Proof.
  intros Hall. unfold fix_md013_line_length. rewrite split_lines.
  cbn [mbind option_bind].
  assert (∀ lines acc,
            Forall (fun line =>
              (len line <= max_len)%Z ∨ contains (py "|") line = true ∨
              contains (py "`") line = true ∨
              (contains [wide_comma] line = false ∧ contains (py ". ") line = false))
              lines →
            for_each (md013_line max_len) lines acc = Some (acc ++ lines)) as Hloop.
  { induction lines as [|line lines IH]; intros acc Hl.
    - simpl. by rewrite app_nil_r.
    - inversion Hl as [|? ? Hline Hl']; subst. cbn [for_each].
      rewrite md013_line_untouched by done.
      cbn [mbind option_bind]. rewrite IH by done. by rewrite <- (assoc_L (++)). }
  rewrite Hloop by done. cbn [mbind option_bind app]. f_equal.
  apply join_split_one.
Qed.

(** The texts the trailing-newline rule returns as they are: those that
    end with one newline and not with two. *)
Lemma md047_fixed_iff (content : str) :
  fix_md047_file_ends_newline content = Some content ↔
  last content = Some nl ∧ ∀ s, content ≠ s ++ py "\n\n".
Proof.
  split; [|intros [H1 H2]; by apply md047_identity].
  destruct (trailing_decomp content) as (body & j & -> & Hlast).
  rewrite md047_of_body by done. intros [= H]. apply app_inv_head in H.
  destruct j as [|[|j]]; [done| |done]. cbn [repeat]. split; [apply last_snoc|].
  intros s Hs. change (py "\n\n") with ([nl] ++ [nl]) in Hs.
  rewrite (assoc_L (++)) in Hs. apply app_inj_tail in Hs as [-> _].
  by rewrite last_snoc in Hlast.
Qed.


End PassThrough.

(** ** The properties of the specification *)

Section Claims.

Import Py Re MarkdownFixer Spec.

(** C1.  Three identical level-3 headings [### Foo] come out of the
    duplicate-heading rule as [### Foo], [### Foo (2)], [### Foo (3)], and
    the rule applied to that output returns it unchanged. *)
Theorem md024_three_headings_converge :
  fix_md024_duplicate_headings (py "### Foo\n### Foo\n### Foo") =
    Some (py "### Foo\n### Foo (2)\n### Foo (3)") ∧
  fix_md024_duplicate_headings (py "### Foo\n### Foo (2)\n### Foo (3)") =
    Some (py "### Foo\n### Foo (2)\n### Foo (3)").
Proof. split; vm_compute; reflexivity. Qed.

(** C2, as stated, fails: the headings [### a:b] and [### ab] differ by a
    colon that is not at the end, yet they share one key and the second is
    numbered as a duplicate of the first. *)
Lemma md024_inner_colon_counterexample :
  md024_base (py "### a:b") = py "ab" ∧
  md024_base (py "### ab") = py "ab" ∧
  fix_md024_duplicate_headings (py "### a:b\n### ab") =
    Some (py "### a:b\n### ab (2)") ∧
  fix_md024_duplicate_headings (py "### a:b\n### ab") ≠
    Some (py "### a:b\n### ab").
Proof. repeat split; try (vm_compute; reflexivity). vm_compute. discriminate. Qed.

(** C2, amended.  The key of a level-3 heading is [md024_base]: the line
    with every [### ] and every colon removed, then stripped of surrounding
    whitespace.  Line [i] of the output is line [i] of the input, unless
    that is a level-3 heading whose key has occurred among the headings
    before it: the [n]-th heading of a key, [n >= 2], becomes [### ], the
    key and [ (n)]. *)
Theorem md024_numbers_by_key (content : str) :
  ∃ lines outs,
    split (py "\n") content = Some lines ∧
    fix_md024_duplicate_headings content = Some (join (py "\n") outs) ∧
    length outs = length lines ∧
    ∀ i line, lines !! i = Some line →
      outs !! i =
        Some (if startswith (py "### ") line then
                let n := occurrences (md024_base line) (take (S i) lines) in
                if n =? 1 then line
                else py "### " ++ md024_base line ++ py " (" ++ str_of_nat n ++ py ")"
              else line).
Proof.
  exists (split_go (py "\n") 0 content),
         (imap (md024_out (split_go (py "\n") 0 content)) (split_go (py "\n") 0 content)).
  split; [done|]. split; [apply md024_returns|]. split; [apply length_imap|].
  intros i line Hi. rewrite list_lookup_imap, Hi. done.
Qed.

(** C3.  The blank-line rule and the trailing-newline rule return on every
    text, and return their own output unchanged. *)
Theorem newline_rules_idempotent (x : str) :
  (∃ y, fix_md012_multiple_blank_lines x = Some y ∧
        fix_md012_multiple_blank_lines y = Some y) ∧
  (∃ y, fix_md047_file_ends_newline x = Some y ∧
        fix_md047_file_ends_newline y = Some y).
Proof. split; [apply md012_idempotent|apply md047_idempotent]. Qed.

(** C4.  There is a text, a [<strong>] line directly above a marked bullet,
    on which the blank-line-before-bullet rule followed by the promotion
    rule gives another result than the two rules in the other order. *)
Theorem md032_md036_order_matters :
  ∃ content text bullet out1 out2,
    content = py "<strong>" ++ text ++ py "</strong>\n- " ++ [check_mark] ++ bullet ∧
    (nl ∉ text) ∧ (nl ∉ bullet) ∧
    apply_rules content
      [fix_md032_heading_list_spacing; fix_md036_emphasis_heading] = Some out1 ∧
    apply_rules content
      [fix_md036_emphasis_heading; fix_md032_heading_list_spacing] = Some out2 ∧
    out1 ≠ out2.
Proof.
  exists (py "<strong>Foo</strong>\n- " ++ [check_mark] ++ py " x"), (py "Foo"), (py " x"),
         (py "### Foo\n- " ++ [check_mark] ++ py " x"),
         (py "### Foo\n\n- " ++ [check_mark] ++ py " x").
  split; [done|].
  split; [apply (bool_decide_unpack _); by vm_compute|].
  split; [apply (bool_decide_unpack _); by vm_compute|].
  split; [vm_compute; reflexivity|]. split; [vm_compute; reflexivity|].
  vm_compute. discriminate.
Qed.

(** C5, as stated, fails: a line of 100 characters, [. ] and 118
    characters is split into segments of 100 and 118 characters, neither
    over the bound of 120, and the second output line has 122. *)
Lemma md013_prefix_counterexample :
  split (py ". ") long_sentence = Some [repeat (ch "a") 100; repeat (ch "b") 118] ∧
  md013_line default_max_len [] long_sentence =
    Some [repeat (ch "a") 100; py "  . " ++ repeat (ch "b") 118] ∧
  len (py "  . " ++ repeat (ch "b") 118) = 122%Z ∧
  ¬ (len (py "  . " ++ repeat (ch "b") 118) <= default_max_len)%Z.
Proof.
  split; [vm_compute; reflexivity|]. split; [vm_compute; reflexivity|].
  split; [vm_compute; reflexivity|]. vm_compute. by intros H.
Qed.

(** C5, amended.  With the bound 120, every line that the wrap rule puts
    out for an input line over the bound, without pipe and backtick and
    with a split token, has at most 120 characters, or holds a single
    segment of the split: the first segment as it is, or a later segment,
    stripped, behind two spaces and the token. *)
Theorem md013_wrapped_bound (line : str) :
  (len line > default_max_len)%Z →
  contains (py "|") line = false → contains (py "`") line = false →
  contains [wide_comma] line = true ∨ contains (py ". ") line = true →
  ∃ outs, md013_line default_max_len [] line = Some outs ∧
    ∀ out, out ∈ outs →
      (len out <= default_max_len)%Z ∨
      single_segment (if contains [wide_comma] line then [wide_comma] else py ". ")
                     line out.
Proof. apply md013_line_wrapped. Qed.

Lemma md013_wrapped_bound_witness :
  (len long_sentence > default_max_len)%Z ∧
  contains (py "|") long_sentence = false ∧
  contains (py "`") long_sentence = false ∧
  contains (py ". ") long_sentence = true ∧
  ∃ outs, md013_line default_max_len [] long_sentence = Some outs ∧
    ∀ out, out ∈ outs →
      (len out <= default_max_len)%Z ∨
      single_segment (if contains [wide_comma] long_sentence
                      then [wide_comma] else py ". ")
                     long_sentence out.
Proof.
  split; [vm_compute; reflexivity|]. split; [vm_compute; reflexivity|].
  split; [vm_compute; reflexivity|]. split; [vm_compute; reflexivity|].
  apply (md013_wrapped_bound long_sentence).
  - vm_compute. reflexivity.
  - vm_compute. reflexivity.
  - vm_compute. reflexivity.
  - right. vm_compute. reflexivity.
Defined.

(** C6: the code at a block whose closing fence has a blank line behind it
    (and the opening fence one before it).  The rule changes the text: the
    first substitution puts a blank line before the closing fence, the
    second adds a blank line behind it although one is there. *)
Theorem md031_changes_spaced_block :
  fix_md031_code_blocks (py "intro\n\n```bash\nls\n```\n\ntext\n") =
    Some (py "intro\n\n```bash\nls\n\n```\n\n\ntext\n") ∧
  fix_md031_code_blocks (py "intro\n\n```bash\nls\n\n```\n\ntext\n") =
    Some (py "intro\n\n```bash\nls\n\n```\n\n\ntext\n").
Proof. split; vm_compute; reflexivity. Qed.

(** C7: the code at a block with a language tag.  The closing fence gets
    the tag [bash]; an untagged opening fence at the very start of the
    text gets none. *)
Theorem md040_tags_closing_fence :
  fix_md040_code_block_language (py "text\n\n```python\nprint(1)\n```\n") =
    Some (py "text\n\n```python\nprint(1)\n```bash\n") ∧
  fix_md040_code_block_language (py "```\nls\n```\n") =
    Some (py "```\nls\n```bash\n").
Proof. split; vm_compute; reflexivity. Qed.




(** C9.  In a text of lines, a line over the bound that holds a pipe or a
    backtick stands unchanged in the output of the wrap rule, between what
    the rule makes of the lines before it and of the lines behind it. *)
Theorem md013_keeps_tables_and_code (max_len : Z) (before after : list str) (line : str) :
  Forall one_line (before ++ line :: after) →
  (len line > max_len)%Z →
  contains (py "|") line = true ∨ contains (py "`") line = true →
  ∃ before' after',
    for_each (md013_line max_len) before [] = Some before' ∧
    for_each (md013_line max_len) after [] = Some after' ∧
    fix_md013_line_length (join (py "\n") (before ++ line :: after)) max_len =
      Some (join (py "\n") (before' ++ line :: after')).
Proof.
  intros Hall _ Hline.
  destruct (md013_around max_len before after line Hline) as (b' & a' & Hb & Ha & Hloop).
  exists b', a'. split; [done|]. split; [done|].
  unfold fix_md013_line_length. rewrite split_lines. cbn [mbind option_bind].
  change (py "\n") with [nl].
  destruct (before ++ line :: after) as [|l ls] eqn:Hlines; [by destruct before|].
  rewrite (split_join_one nl l ls Hall), Hloop. done.
Qed.

Lemma md013_keeps_tables_and_code_witness :
  Forall one_line ([py "intro"] ++ table_row :: [py "end"]) ∧
  (len table_row > 10)%Z ∧
  contains (py "|") table_row = true ∧
  ∃ before' after',
    for_each (md013_line 10) [py "intro"] [] = Some before' ∧
    for_each (md013_line 10) [py "end"] [] = Some after' ∧
    fix_md013_line_length (join (py "\n") ([py "intro"] ++ table_row :: [py "end"])) 10 =
      Some (join (py "\n") (before' ++ table_row :: after')).
Proof.
  assert (Forall one_line ([py "intro"] ++ table_row :: [py "end"])) as H1.
  { repeat constructor; apply (bool_decide_unpack _); by vm_compute. }
  split; [done|]. split; [by vm_compute|]. split; [by vm_compute|].
  apply (md013_keeps_tables_and_code 10 [py "intro"] [py "end"] table_row);
    [done|by vm_compute|left; by vm_compute].
Defined.

(** C10, as stated, fails for the trailing-newline rule: its pattern
    matches nowhere in [text], and the rule returns [text] with a newline
    behind it, since it appends before it substitutes. *)
Lemma md047_unmatched_counterexample :
  unmatched NOFLAG md047_pattern (py "text") ∧
  fix_md047_file_ends_newline (py "text") = Some (py "text\n") ∧
  fix_md047_file_ends_newline (py "text") ≠ Some (py "text").
Proof.
  split; [apply unmatchedb_spec; vm_compute; reflexivity|].
  split; [vm_compute; reflexivity|]. vm_compute. discriminate.
Qed.

(** C10, amended.  Every rule returns on every text (none of the modelled
    exceptions is reached), the wrap rule for every bound.  A rule that
    only substitutes returns a text that none of its patterns matches as it
    is.  So do the three rules without body and the heading-increment rule
    on every text, the duplicate-heading rule on a text without level-3
    heading, and the wrap rule, for every bound, on a text each line of
    which is within the bound, or holds a pipe or a backtick, or holds no
    split token.  The trailing-newline rule appends before it substitutes:
    it returns as they are the texts that end with one newline and not
    with two, and no others. *)
Theorem rules_total (content : str) :
  Forall (fun rule : str -> option str => is_Some (rule content)) all_rules ∧
  (∀ max_len, is_Some (fix_md013_line_length content max_len)) ∧
  (∀ rule pats, (rule, pats) ∈ rule_patterns →
     Forall (fun fp : bool * re => unmatched fp.1 fp.2 content) pats →
     rule content = Some content) ∧
  fix_md027_asterisk_blocks content = Some content ∧
  fix_md028_blank_line_after_blockquotes content = Some content ∧
  fix_md033_no_inline_html content = Some content ∧
  fix_md001_heading_increment content = Some content ∧
  (∀ lines, split (py "\n") content = Some lines →
     Forall (fun line => startswith (py "### ") line = false) lines →
     fix_md024_duplicate_headings content = Some content) ∧
  (∀ lines max_len, split (py "\n") content = Some lines →
     Forall (fun line =>
               (len line <= max_len)%Z ∨
               contains (py "|") line = true ∨ contains (py "`") line = true ∨
               (contains [wide_comma] line = false ∧
                contains (py ". ") line = false)) lines →
     fix_md013_line_length content max_len = Some content) ∧
  (fix_md047_file_ends_newline content = Some content ↔
   last content = Some nl ∧ ∀ s, content ≠ s ++ py "\n\n").
Proof.
  split; [apply all_rules_return|]. split; [intros; apply md013_returns|].
  split; [apply rule_patterns_pass|]. do 3 (split; [done|]).
  split; [apply md001_identity|].
  split; [|split].
  - intros lines [= <-]. apply md024_identity.
  - intros lines max_len [= <-]. apply md013_untouched.
  - apply md047_fixed_iff.
Qed.

Lemma rules_total_witness :
  fix_md040_code_block_language (py "# Title\n\nplain text\n") =
    Some (py "# Title\n\nplain text\n") ∧
  fix_md024_duplicate_headings (py "# Title\n\nplain text\n") =
    Some (py "# Title\n\nplain text\n") ∧
  fix_md013_line_length (py "# Title\n\nplain text, no stop\n") 10 =
    Some (py "# Title\n\nplain text, no stop\n") ∧
  fix_md047_file_ends_newline (py "# Title\n\nplain text\n") =
    Some (py "# Title\n\nplain text\n").
Proof.
  destruct (rules_total (py "# Title\n\nplain text\n"))
    as (_ & _ & Hpass & _ & _ & _ & _ & H24 & _ & H47).
  destruct (rules_total (py "# Title\n\nplain text, no stop\n"))
    as (_ & _ & _ & _ & _ & _ & _ & _ & H13 & _).
  split; [|split; [|split]].
  - apply (Hpass _ [(NOFLAG, md040_pattern)]).
    + unfold rule_patterns. do 5 apply list_elem_of_further. apply list_elem_of_here.
    + apply Forall_singleton. apply unmatchedb_spec. by vm_compute.
  - apply (H24 _ eq_refl). apply (bool_decide_unpack _). by vm_compute.
  - apply (H13 _ _ eq_refl). apply (bool_decide_unpack _). by vm_compute.
  - apply H47. split; [by vm_compute|].
    intros s Hs. apply (f_equal (fun l => rev l !! 1)) in Hs.
    rewrite rev_app_distr in Hs. by vm_compute in Hs.
Defined.

End Claims.

(** ** Further properties of the rules and the rule sets *)

Section Further.

Import Py Re MarkdownFixer Spec Lines Package.

(** X1.  The result of the blank-line rule holds no three newlines in a
    row, whatever the text. *)
Theorem md012_leaves_no_blank_run (content : str) :
  ∃ out, fix_md012_multiple_blank_lines content = Some out ∧
         contains blank_run out = false.
Proof.
  unfold fix_md012_multiple_blank_lines. rewrite sub_returns by done.
  eexists. split; [done|].
  apply (md012_go_no_blank_run (S (length content))). lia.
Qed.

(** X2.  The blank-line rule returns a text as it is exactly when the text
    holds no three newlines in a row. *)
Theorem md012_fixed_iff (content : str) :
  fix_md012_multiple_blank_lines content = Some content ↔
  contains blank_run content = false.
Proof.
  unfold fix_md012_multiple_blank_lines. rewrite sub_returns by done.
  cbn [mbind option_bind]. split.
  - intros [= H]. rewrite <- H.
    apply (md012_go_no_blank_run (S (length content))). lia.
  - intros H. f_equal. apply (md012_go_fixed (S (length content))); [lia|done].
Qed.

(** X3.  The blank-line rule takes out newlines only: the characters other
    than newlines stay as they are, in their order, and the text does not
    get longer. *)
Theorem md012_removes_only_newlines (content : str) :
  ∃ out, fix_md012_multiple_blank_lines content = Some out ∧
         List.filter non_nl out = List.filter non_nl content ∧
         length out ≤ length content.
Proof.
  unfold fix_md012_multiple_blank_lines. rewrite sub_returns by done.
  eexists. split; [done|].
  apply (md012_go_text (S (length content))). lia.
Qed.

(** X4.  The trailing-newline rule replaces the final run of newlines of a
    text, empty or not, by one newline and keeps what is before it. *)
Theorem md047_one_final_newline (content : str) :
  ∃ body j, content = body ++ repeat nl j ∧ last body ≠ Some nl ∧
            fix_md047_file_ends_newline content = Some (body ++ [nl]).
Proof.
  destruct (trailing_decomp content) as (body & j & -> & Hlast).
  exists body, j. split; [done|]. split; [done|]. by apply md047_of_body.
Qed.

(** X5.  The blank-line rule and the trailing-newline rule give the same
    result in either order; the result holds no three newlines in a row,
    ends with one newline and not with two, and both rules return it as
    it is. *)
Theorem newline_rules_commute (content : str) :
  ∃ out,
    fix_md012_multiple_blank_lines content ≫= fix_md047_file_ends_newline = Some out ∧
    fix_md047_file_ends_newline content ≫= fix_md012_multiple_blank_lines = Some out ∧
    contains blank_run out = false ∧
    endswith (py "\n") out = true ∧ endswith (py "\n\n") out = false ∧
    fix_md012_multiple_blank_lines out = Some out ∧
    fix_md047_file_ends_newline out = Some out.
Proof. apply newline_rules_normal_form. Qed.

(** X6.  A file whose name is none of [CONTRIBUTING.md], [FAQ.md] and
    [prd.md] gets the two newline rules, from the table or by default.
    Their result holds no three newlines in a row, ends with one newline
    and not with two, has the characters of the text other than newlines,
    and is returned as it is by a second run. *)
Theorem default_rules_normal_form (name content : str) :
  name ≠ py "CONTRIBUTING.md" → name ≠ py "FAQ.md" → name ≠ py "prd.md" →
  ∃ out, apply_rules content (auto_rules name) = Some out ∧
         contains blank_run out = false ∧
         endswith (py "\n") out = true ∧ endswith (py "\n\n") out = false ∧
         List.filter non_nl out = List.filter non_nl content ∧
         apply_rules out (auto_rules name) = Some out.
Proof.
  intros H1 H2 H3. rewrite auto_rules_default by done.
  destruct (newline_rules_normal_form content)
    as (out & Ho & _ & Hrun & He1 & He2 & H12 & H47).
  exists out. rewrite !apply_rules_two. split; [done|].
  split; [done|]. split; [done|]. split; [done|]. split.
  - destruct (md012_result content) as (c1 & Hc1 & Hf1). rewrite Hc1 in Ho.
    cbn [mbind option_bind] in Ho.
    destruct (md047_result c1) as (c2 & Hc2 & _ & _ & Hf2). rewrite Hc2 in Ho.
    injection Ho as <-. by rewrite Hf2.
  - rewrite H12. cbn [mbind option_bind]. done.
Qed.

Lemma default_rules_normal_form_witness :
  py "README.md" ≠ py "CONTRIBUTING.md" ∧ py "README.md" ≠ py "FAQ.md" ∧
  py "README.md" ≠ py "prd.md" ∧
  ∃ out, apply_rules (py "a\n\n\n\nb") (auto_rules (py "README.md")) = Some out ∧
         contains blank_run out = false ∧
         endswith (py "\n") out = true ∧ endswith (py "\n\n") out = false ∧
         List.filter non_nl out = List.filter non_nl (py "a\n\n\n\nb") ∧
         apply_rules out (auto_rules (py "README.md")) = Some out.
Proof.
  assert (py "README.md" ≠ py "CONTRIBUTING.md") as H1
    by (apply (bool_decide_unpack _); by vm_compute).
  assert (py "README.md" ≠ py "FAQ.md") as H2
    by (apply (bool_decide_unpack _); by vm_compute).
  assert (py "README.md" ≠ py "prd.md") as H3
    by (apply (bool_decide_unpack _); by vm_compute).
  split; [done|]. split; [done|]. split; [done|].
  apply (default_rules_normal_form (py "README.md") (py "a\n\n\n\nb")); done.
Defined.

(** X7.  The rule set of [prd.md] changes whitespace only, and its result
    ends with one newline and not with two. *)
Theorem prd_rules_whitespace_only (content : str) :
  ∃ out, apply_rules content (auto_rules (py "prd.md")) = Some out ∧
         same_text content out ∧
         endswith (py "\n") out = true ∧ endswith (py "\n\n") out = false.
Proof. rewrite auto_rules_prd. apply prd_rules_result. Qed.

(** X8.  The rules of a file, whatever its name, return on every text:
    no rule of a rule set raises. *)
Theorem auto_rules_return (name content : str) :
  is_Some (apply_rules content (auto_rules name)).
Proof. apply apply_rules_returns. apply auto_rules_known. Qed.

(** X9.  Applying a list of rules and then another is applying the two
    lists as one: a rule that raises in the first ends the run. *)
Theorem apply_rules_concat (content : str) (rules1 rules2 : list (str -> option str)) :
  apply_rules content (rules1 ++ rules2) =
  apply_rules content rules1 ≫= fun content' => apply_rules content' rules2.
Proof. unfold apply_rules. apply for_each_app. Qed.

(** X10.  The code-block rule puts in newlines and nothing else: the text
    is a subsequence of the result, and the characters other than newlines
    are the same. *)
Theorem md031_inserts_only_newlines (content : str) :
  ∃ out, fix_md031_code_blocks content = Some out ∧ newlines_added content out.
Proof. apply md031_only_newlines. Qed.

(** X11.  The heading-and-list rule puts in newlines and nothing else. *)
Theorem md032_inserts_only_newlines (content : str) :
  ∃ out, fix_md032_heading_list_spacing content = Some out ∧
         newlines_added content out.
Proof. apply md032_only_newlines. Qed.

(** X12.  The language rule takes no character out, and it keeps the
    newlines as many as they were. *)
Theorem md040_inserts_only (content : str) :
  ∃ out, fix_md040_code_block_language content = Some out ∧
         sublist content out ∧ same_newlines content out.
Proof. apply md040_only_inserts. Qed.

(** X13.  The list-marker rule works line by line: a line that begins with
    two spaces, a dash and a space, or with two spaces, a star and a
    space, loses the two spaces; every other line stays. *)
Theorem md030_line_by_line (content : str) :
  fix_md030_list_markers content =
  Some (join (py "\n") (map md030_line (split_go (py "\n") 0 content))).
Proof. apply md030_by_line. Qed.

(** X14.  The list-marker rule returns its own result as it is. *)
Theorem md030_twice (content : str) :
  ∃ out, fix_md030_list_markers content = Some out ∧
         fix_md030_list_markers out = Some out.
Proof. apply md030_idempotent. Qed.

(** X15.  The wrap rule changes whitespace only, for every bound: the
    characters other than whitespace stay as they are, in their order. *)
Theorem md013_whitespace_only (content : str) (max_len : Z) :
  ∃ out, fix_md013_line_length content max_len = Some out ∧ same_text content out.
Proof. apply md013_same_text. Qed.

(** X16.  A text whose level-3 headings have different keys is returned by
    the duplicate-heading rule as it is. *)
Theorem md024_distinct_keys (content : str) :
  List.NoDup (map md024_base
                (List.filter (startswith (py "### ")) (split_go (py "\n") 0 content))) →
  fix_md024_duplicate_headings content = Some content.
Proof. apply md024_distinct. Qed.

Lemma md024_distinct_keys_witness :
  List.NoDup (map md024_base
                (List.filter (startswith (py "### "))
                   (split_go (py "\n") 0 (py "### Setup\ntext\n### Usage:\n")))) ∧
  fix_md024_duplicate_headings (py "### Setup\ntext\n### Usage:\n") =
  Some (py "### Setup\ntext\n### Usage:\n").
Proof.
  assert (List.NoDup (map md024_base
            (List.filter (startswith (py "### "))
               (split_go (py "\n") 0 (py "### Setup\ntext\n### Usage:\n"))))) as H
    by (apply NoDup_ListNoDup, (bool_decide_unpack _); by vm_compute).
  split; [done|]. by apply (md024_distinct_keys (py "### Setup\ntext\n### Usage:\n")).
Defined.

(** X17.  The trailing-colon rule works line by line: a line that is
    [### ] or [## ], a non-empty text without colon, and a colon loses the
    colon; every other line stays. *)
Theorem md026_line_by_line (content : str) :
  fix_md026_trailing_punctuation content =
  Some (join (py "\n")
          (map (fun line => md026_strip (py "## ") (md026_strip (py "### ") line))
               (split_go (py "\n") 0 content))).
Proof. apply md026_by_line. Qed.

(** X18.  The trailing-colon rule returns its own result as it is. *)
Theorem md026_twice (content : str) :
  ∃ out, fix_md026_trailing_punctuation content = Some out ∧
         fix_md026_trailing_punctuation out = Some out.
Proof. apply md026_idempotent. Qed.

(** X19.  The image rule takes no character out: the text is a subsequence
    of the result. *)
Theorem md045_inserts_only (content : str) :
  ∃ out, fix_md045_image_alt_text content = Some out ∧ sublist content out.
Proof. apply md045_only_inserts. Qed.

(** X20.  The emphasis rule neither joins nor splits lines: the result has
    the newlines of the text, as many as they were. *)
Theorem md036_keeps_lines (content : str) :
  ∃ out, fix_md036_emphasis_heading content = Some out ∧ same_newlines content out.
Proof. apply md036_same_newlines. Qed.

(** X21.  A text that nowhere holds [](#], the middle of a link to a
    fragment, is returned by the link rule as it is. *)
Theorem md051_without_fragment_link (content : str) :
  contains (py "](#") content = false →
  fix_md051_link_fragments content = Some content.
Proof. apply md051_untouched. Qed.

Lemma md051_without_fragment_link_witness :
  contains (py "](#") (py "See [Performance](perf.md) and #performance\n") = false ∧
  fix_md051_link_fragments (py "See [Performance](perf.md) and #performance\n") =
  Some (py "See [Performance](perf.md) and #performance\n").
Proof.
  split; [vm_compute; reflexivity|].
  apply (md051_without_fragment_link
           (py "See [Performance](perf.md) and #performance\n")).
  vm_compute. reflexivity.
Defined.

End Further.
